(** * uncomment_files.py: revive source files that were commented out wholesale

    A shallow embedding of [src/uncomment_files.py] and the properties the
    specification states about it.

    - Python [str] values are lists of Unicode code points ([N]); the
      methods the script calls ([strip], [startswith], [endswith],
      [replace] with count 1) are written out below.
    - Exceptions are an error monad ([result]): [ZeroDivisionError] for the
      true division, [OSError] for a file that cannot be opened or written,
      [UnicodeDecodeError] for a file that opens but does not decode.
    - The true division and the comparison with 0.95 are those of binary64
      floats (Rocq's primitive floats); they are related to the exact
      quotient in the section on binary64.
    - The file system maps paths to files and files to their content, so that
      two paths (a link and its target) can name one file; a file may fail
      to decode and may refuse a write.  Console output and the sequence of
      file operations are part of the [world] the main loop threads through,
      next to the script's global [count]; a step that raises returns the
      world it has reached. *)

From Stdlib Require Import ZArith NArith QArith List Ascii String Lia.
From Stdlib Require Import DecimalString Floats Uint63.
From stdpp Require Import gmap list.

Local Close Scope Q_scope.
Local Open Scope nat_scope.
Local Open Scope list_scope.

(** ** Python strings *)

Module Py.

(** A [str] is a sequence of code points. *)
Definition str := list N.

(** ASCII literals of the source, as code points. *)
Definition lit (x : string) : str := map N_of_ascii (list_ascii_of_string x).

(** [str.isspace] on one code point (CPython's [_PyUnicode_IsWhitespace]). *)
Definition isspace (c : N) : bool :=
  ((0x09 <=? c) && (c <=? 0x0D) || (0x1C <=? c) && (c <=? 0x20)
   || (c =? 0x85) || (c =? 0xA0) || (c =? 0x1680)
   || (0x2000 <=? c) && (c <=? 0x200A)
   || (c =? 0x2028) || (c =? 0x2029) || (c =? 0x202F) || (c =? 0x205F)
   || (c =? 0x3000))%N.

(** [s.lstrip()], [s.rstrip()] and [s.strip()] without argument. *)
Fixpoint lstrip (s : str) : str :=
  match s with
  | [] => []
  | c :: t => if isspace c then lstrip t else s
  end.

Definition rstrip (s : str) : str := rev (lstrip (rev s)).

Definition strip (s : str) : str := rstrip (lstrip s).

(** [s.startswith(prefix)] and [s.endswith(suffix)]. *)
Fixpoint startswith (s prefix : str) {struct prefix} : bool :=
  match prefix, s with
  | [], _ => true
  | _ :: _, [] => false
  | p :: prefix', c :: s' => (c =? p)%N && startswith s' prefix'
  end.

Definition endswith (s suffix : str) : bool := startswith (rev s) (rev suffix).

(** [s.replace(old, new, 1)]: the leftmost occurrence of [old] is replaced,
    and [s] is returned as it is when there is none. *)
Fixpoint replace1 (s old new : str) : str :=
  if startswith s old then new ++ drop (length old) s
  else match s with
       | [] => []
       | c :: t => c :: replace1 t old new
       end.

(** Truthiness of a string and of a list: non-empty. *)
Definition truthy {A} (l : list A) : bool :=
  match l with [] => false | _ :: _ => true end.

(** [str(n)] for a non-negative integer. *)
Definition str_of_nat (n : nat) : str := lit (NilEmpty.string_of_uint (Nat.to_uint n)).

(** Exceptions the script can raise, and computations that may raise. *)
Inductive exn : Type :=
  | ZeroDivisionError
  | OSError (path : str)
  | UnicodeDecodeError.

Inductive result (A : Type) : Type :=
  | Ok (a : A)
  | Raise (e : exn).
Arguments Ok {A} a.
Arguments Raise {A} e.

Definition bind {A B} (m : result A) (k : A -> result B) : result B :=
  match m with
  | Ok a => k a
  | Raise e => Raise e
  end.

(** [float(n)] for a length: exact below 2^53, as Python's conversion is,
    and no list in memory is that long. *)
Definition float_of_nat (n : nat) : float :=
  PrimFloat.of_uint63 (Uint63.of_Z (Z.of_nat n)).

(** [a / b] on two lengths: true division to a binary64 float, which
    raises on a zero divisor. *)
Definition truediv (a b : nat) : result float :=
  match b with
  | O => Raise ZeroDivisionError
  | S _ => Ok (float_of_nat a / float_of_nat b)%float
  end.

(** The literal [0.95]: the binary64 value nearest to 19/20, which lies
    below it. *)
Definition f0_95 : float := 0x1.e666666666666p-1%float.

(** [a / b > 0.95] as the source evaluates it, for [b] other than zero. *)
Definition float_gt_095 (a b : nat) : bool :=
  (f0_95 <? float_of_nat a / float_of_nat b)%float.

(** The exact quotient of two lengths, for comparison. *)
Definition exact_ratio (a b : nat) : Q := Qmake (Z.of_nat a) (Pos.of_nat b).

(** The significand of [f0_95] in units of 2^-53; it is even. *)
Definition MD : Z := 8556839292003942.

(** Whether a rounding location is exact. *)
Definition is_exact (l : location) : bool :=
  match l with
  | loc_Exact => true
  | loc_Inexact _ => false
  end.

(** [posixpath.join(a, b)] for two components. *)
Definition os_path_join (a b : str) : str :=
  if startswith b (lit "/") then b
  else if negb (truthy a) || endswith a (lit "/") then a ++ b
  else a ++ lit "/" ++ b.

(** Text-mode reading translates "\r\n" and a lone "\r" to "\n". *)
Fixpoint universal_newlines (s : str) : str :=
  match s with
  | [] => []
  | c :: t =>
      if (c =? 13)%N then
        match t with
        | c' :: t' => if (c' =? 10)%N then 10%N :: universal_newlines t'
                      else 10%N :: universal_newlines t
        | [] => [10%N]
        end
      else c :: universal_newlines t
  end.

(** [f.readlines()] on translated text: each line keeps its terminating
    "\n"; only the last line may lack one. *)
Fixpoint readlines (s : str) : list str :=
  match s with
  | [] => []
  | c :: t =>
      if (c =? 10)%N then [c] :: readlines t
      else match readlines t with
           | [] => [[c]]
           | l :: ls => (c :: l) :: ls
           end
  end.

End Py.

Import Py.

Notation "'let!' x ':=' m 'in' k" := (bind m (fun x => k))
  (at level 10, x pattern, m at level 100, k at level 200).

(** ** The script *)

Definition TARGET_DIR : str := lit "/Volumes/Mayor/Build/portalpay-official/src".

(** The two comprehensions of [is_fully_commented]. *)
Definition non_empty (lines : list str) : list str :=
  filter (fun l => truthy (strip l) = true) lines.

Definition commented (lines : list str) : list str :=
  filter (fun l => startswith (strip l) (lit "//") = true) (non_empty lines).

Definition is_fully_commented (lines : list str) : result bool :=
  if negb (truthy (non_empty lines)) then Ok false
  else
    let! ratio := truediv (length (commented lines)) (length (non_empty lines)) in
    Ok (f0_95 <? ratio)%float.

Definition uncomment_line (line : str) : str :=
  if startswith (strip line) (lit "// ") then replace1 line (lit "// ") []
  else if startswith (strip line) (lit "//") then replace1 line (lit "//") []
  else line.

(** *** Files and console *)

(** What a file holds: text, or bytes that the default encoding does not
    decode. *)
Inductive content : Type :=
  | Text (text : str)
  | Undecodable.

(** What opening a file for writing and writing to it does: it succeeds;
    [open] raises and the file stays as it is (a read-only file); or the
    file is truncated and the write raises, leaving [rest] (a full disk). *)
Inductive write_mode : Type :=
  | Accepts
  | Refuses
  | Breaks (rest : content).

Record file : Type := File {
  contents : content;
  on_write : write_mode
}.

(** What the script does to a file, in order. *)
Inductive event : Type :=
  | Opened_r (path : str)
  | Written (path : str) (data : str)
  | Damaged (path : str).

Record world : Type := World {
  names : gmap str N;        (* the file a path leads to, links followed;
                                a path that cannot be opened leads nowhere *)
  disk : gmap N file;        (* the files *)
  stdout : list str;         (* lines printed so far *)
  trace : list event         (* file operations so far *)
}.

Definition log (e : event) (w : world) : world :=
  World (names w) (disk w) (stdout w) (trace w ++ [e]).

Definition store (i : N) (f : file) (w : world) : world :=
  World (names w) (<[i := f]> (disk w)) (stdout w) (trace w).

(** [with open(path, "r") as f: lines = f.readlines()]: [open] raises
    [OSError] on a path that leads to no file; [readlines] raises
    [UnicodeDecodeError] on a file that does not decode. *)
Definition open_readlines (path : str) (w : world) : result (list str) * world :=
  match names w !! path with
  | None => (Raise (OSError path), w)
  | Some i =>
      match disk w !! i with
      | None => (Raise (OSError path), w)
      | Some f =>
          let w := log (Opened_r path) w in
          match contents f with
          | Undecodable => (Raise UnicodeDecodeError, w)
          | Text text => (Ok (readlines (universal_newlines text)), w)
          end
      end
  end.

(** [with open(path, "w") as f: f.writelines(new_lines)]: the file the path
    leads to is truncated and the lines written one after the other; on the
    platform of [TARGET_DIR] a written "\n" stays as it is.  [OSError] is
    raised by [open] on a file that refuses the write, and by the write
    when it breaks. *)
Definition open_writelines (path : str) (new_lines : list str) (w : world)
  : result unit * world :=
  let data := concat new_lines in
  match names w !! path with
  | None => (Raise (OSError path), w)
  | Some i =>
      match disk w !! i with
      | None => (Raise (OSError path), w)
      | Some f =>
          match on_write f with
          | Accepts =>
              (Ok tt, log (Written path data) (store i (File (Text data) (on_write f)) w))
          | Refuses => (Raise (OSError path), w)
          | Breaks rest =>
              (Raise (OSError path), log (Damaged path) (store i (File rest (on_write f)) w))
          end
      end
  end.

Definition print (line : str) (w : world) : world :=
  World (names w) (disk w) (stdout w ++ [line]) (trace w).

(** The body of the inner loop, for one [file] of the directory [root];
    the state is the world and the global [count]. *)
Definition visit (root file : str) (st : world * nat) : result unit * (world * nat) :=
  let '(w, count) := st in
  if endswith file (lit ".tsx") || endswith file (lit ".ts") then
    let path := os_path_join root file in
    match open_readlines path w with
    | (Raise e, w) => (Raise e, (w, count))
    | (Ok lines, w) =>
        match is_fully_commented lines with
        | Raise e => (Raise e, (w, count))
        | Ok fully =>
            if fully then
              let w := print (lit "Uncommenting: " ++ path) w in
              let new_lines := map uncomment_line lines in
              match open_writelines path new_lines w with
              | (Raise e, w) => (Raise e, (w, count))
              | (Ok _, w) => (Ok tt, (w, count + 1))
              end
            else (Ok tt, (w, count))
        end
    end
  else (Ok tt, st).

(** A [for] loop whose body may raise: the loop stops there, in the state
    reached. *)
Fixpoint for_each {A S} (body : A -> S -> result unit * S) (xs : list A) (st : S)
  : result unit * S :=
  match xs with
  | [] => (Ok tt, st)
  | x :: xs' =>
      match body x st with
      | (Ok _, st') => for_each body xs' st'
      | (Raise e, st') => (Raise e, st')
      end
  end.

(** The module body.  [os_walk] stands for [os.walk]: the sequence of
    [(root, dirs, files)] it yields for a directory.  The summary line is
    printed only when the loops return. *)
Definition main (os_walk : str -> list (str * list str * list str)) (w : world)
  : result unit * world :=
  let count := 0 in
  match for_each (fun '(root, dirs, files) => for_each (visit root) files)
                 (os_walk TARGET_DIR) (w, count) with
  | (Ok _, (w, count)) =>
      (Ok tt, print (lit "Total files uncommented: " ++ str_of_nat count) w)
  | (Raise e, (w, count)) => (Raise e, w)
  end.

(** *** What one run does to one file's text *)

(** The test of the inner loop on a file name. *)
Definition is_target (file : str) : bool :=
  endswith file (lit ".tsx") || endswith file (lit ".ts").

(** The lines the script reads from a file holding [text]. *)
Definition lines_of (text : str) : list str := readlines (universal_newlines text).

(** Whether a file holding [text] passes [is_fully_commented]. *)
Definition qualifies (text : str) : bool :=
  match is_fully_commented (lines_of text) with
  | Ok b => b
  | Raise _ => false
  end.

(** What the script writes back to a qualifying file. *)
Definition rewritten (text : str) : str := concat (map uncomment_line (lines_of text)).

(** The text of a target file after one run. *)
Definition run_once (text : str) : str :=
  if qualifies text then rewritten text else text.

(** The files of the walk in the order the loops reach them, and the paths
    of those the extension test lets through. *)
Definition walk_files (walk : list (str * list str * list str)) : list (str * str) :=
  flat_map (fun '(root, dirs, files) => map (pair root) files) walk.

Definition paths_of (entries : list (str * str)) : list str :=
  map (fun '(root, file) => os_path_join root file)
      (filter (fun '(root, file) => is_target file = true) entries).

Definition target_paths (walk : list (str * list str * list str)) : list str :=
  paths_of (walk_files walk).

Definition event_path (e : event) : str :=
  match e with
  | Opened_r p => p
  | Written p _ => p
  | Damaged p => p
  end.

(** The two kinds of console line. *)
Definition console_line (path : str) : str := lit "Uncommenting: " ++ path.

Definition summary_line (count : nat) : str :=
  lit "Total files uncommented: " ++ str_of_nat count.

(** The file a path leads to, and its text when it decodes. *)
Definition file_at (w : world) (path : str) : option file :=
  match names w !! path with
  | Some i => disk w !! i
  | None => None
  end.

Definition text_of (f : file) : option str :=
  match contents f with
  | Text text => Some text
  | Undecodable => None
  end.

Definition text_at (w : world) (path : str) : option str :=
  match file_at w path with
  | Some f => text_of f
  | None => None
  end.

Definition accepts (f : file) : bool :=
  match on_write f with
  | Accepts => true
  | _ => false
  end.

Definition accepts_write (w : world) (path : str) : bool :=
  match file_at w path with
  | Some f => accepts f
  | None => false
  end.

(** Whether the script prints the console line of a file: it decodes and
    qualifies. *)
Definition announced_file (f : file) : bool :=
  match contents f with
  | Text text => qualifies text
  | Undecodable => false
  end.

Definition announced (w : world) (path : str) : bool :=
  match file_at w path with
  | Some f => announced_file f
  | None => false
  end.

(** A file the script gets past: it decodes and, when it qualifies,
    accepts the write. *)
Definition fine_file (f : file) : bool :=
  match contents f with
  | Text text => negb (qualifies text) || accepts f
  | Undecodable => false
  end.

Definition fine (w : world) (path : str) : bool :=
  match file_at w path with
  | Some f => fine_file f
  | None => false
  end.

(** The exception a path that is not [fine] ends the run with. *)
Definition failure (w : world) (path : str) : exn :=
  match file_at w path with
  | Some f =>
      match contents f with
      | Undecodable => UnicodeDecodeError
      | Text _ => OSError path
      end
  | None => OSError path
  end.

(** How the loops end on a list of target paths, and the paths they reach:
    those up to the first that is not [fine], that one included. *)
Fixpoint ending (w : world) (paths : list str) : result unit :=
  match paths with
  | [] => Ok tt
  | p :: paths' => if fine w p then ending w paths' else Raise (failure w p)
  end.

Fixpoint reached (w : world) (paths : list str) : list str :=
  match paths with
  | [] => []
  | p :: paths' => if fine w p then p :: reached w paths' else [p]
  end.

(** The console line of a write that failed: that of the first path that
    is not [fine], when its file qualifies. *)
Fixpoint pending (w : world) (paths : list str) : list str :=
  match paths with
  | [] => []
  | p :: paths' =>
      if fine w p then pending w paths'
      else if announced w p then [console_line p] else []
  end.

(** Two paths that lead to one file. *)
Definition same_file (w : world) (p q : str) : Prop :=
  exists i, names w !! p = Some i /\ names w !! q = Some i.

(** The file operations one target path gives rise to. *)
Definition events_of_file (path : str) (f : file) : list event :=
  match contents f with
  | Undecodable => [Opened_r path]
  | Text text =>
      Opened_r path ::
      (if qualifies text then
         match on_write f with
         | Accepts => [Written path (rewritten text)]
         | Refuses => []
         | Breaks _ => [Damaged path]
         end
       else [])
  end.

Definition events_of (w : world) (path : str) : list event :=
  match file_at w path with
  | Some f => events_of_file path f
  | None => []
  end.

(** What visiting a file through one of its paths leaves of it. *)
Definition left_by (f : file) : file :=
  match contents f with
  | Undecodable => f
  | Text text =>
      if qualifies text then
        match on_write f with
        | Accepts => File (Text (rewritten text)) Accepts
        | Refuses => f
        | Breaks rest => File rest (Breaks rest)
        end
      else f
  end.

Definition qualifying_paths (w : world) (paths : list str) : list str :=
  filter (fun p => announced w p = true) paths.

(** The files that some paths lead to. *)
Definition files_of (w : world) (paths : list str) : list N :=
  omap (fun p => names w !! p) paths.

(** Whether an event writes [path], and the number of such events. *)
Definition is_write (e : event) : bool :=
  match e with
  | Written _ _ => true
  | _ => false
  end.

Definition is_write_to (path : str) (e : event) : bool :=
  match e with
  | Written p _ => bool_decide (p = path)
  | _ => false
  end.

Definition written_count (path : str) (evs : list event) : nat :=
  length (filter (fun e => is_write_to path e = true) evs).

(** The two counts of the qualification ratio, taken from all the lines of
    a file: the lines that are not blank, and the lines whose stripped form
    starts with the marker. *)
Definition nonblank_count (lines : list str) : nat :=
  length (filter (fun l => strip l <> []) lines).

Definition marked_count (lines : list str) : nat :=
  length (filter (fun l => startswith (strip l) (lit "//") = true) lines).

(** A line that ends in its only "\n". *)
Definition terminated (l : str) : Prop :=
  exists body, l = body ++ [10%N] /\ 10%N ∉ body.

(** The last element of a list of lines: absent when the text is empty or
    ends in "\n", else the unterminated rest. *)
Definition final_line (tail : str) : list str :=
  match tail with
  | [] => []
  | _ :: _ => [tail]
  end.

(** [pre] and [post] cut [s] around the leftmost occurrence of [old]. *)
Definition first_occurrence (s old pre post : str) : Prop :=
  s = pre ++ old ++ post /\
  forall pre' post', s = pre' ++ old ++ post' -> length pre <= length pre'.

(** *** Sample inputs *)

Definition sample_os_walk (top : str) : list (str * list str * list str) :=
  [(top, [lit "lib"], [lit "a.ts"; lit "notes.md"]);
   (top ++ lit "/lib", [], [lit "b.tsx"; lit "c.ts"])].

Definition sample_text : str :=
  lit "// const x = 1" ++ [10%N] ++ lit "  // const z = 3" ++ [10%N].

Definition sample_names : gmap str N :=
  {[ TARGET_DIR ++ lit "/a.ts" := 1%N;
     TARGET_DIR ++ lit "/notes.md" := 2%N;
     TARGET_DIR ++ lit "/lib/b.tsx" := 3%N;
     TARGET_DIR ++ lit "/lib/c.ts" := 4%N ]}.

Definition sample_disk : gmap N file :=
  {[ 1%N := File (Text sample_text) Accepts;
     2%N := File (Text (lit "// not a target" ++ [10%N])) Accepts;
     3%N := File (Text (lit "const y = 2;" ++ [10%N])) Accepts;
     4%N := File (Text (lit "   " ++ [10%N])) Accepts ]}.

Definition sample_world : world := World sample_names sample_disk [] [].

(** The files of the specification's scenarios: 21 comment-marked lines;
    19 comment-marked lines and one line of code; 20 and one. *)
Definition all_commented_text : str :=
  concat (repeat (lit "// const x = 1" ++ [10%N]) 21).

Definition boundary_text : str :=
  concat (repeat (lit "// const x = 1" ++ [10%N]) 19) ++ lit "const y = 2;" ++ [10%N].

Definition above_boundary_text : str :=
  concat (repeat (lit "// const x = 1" ++ [10%N]) 20) ++ lit "const y = 2;" ++ [10%N].

(** A line that carries the marker twice, and a file that is one bare marker. *)
Definition nested_text : str := lit "// // x" ++ [10%N].

Definition bare_marker_text : str := lit "//".

(** *** Notions used by the further properties *)

(** The leading whitespace of a line: what [lstrip] takes off. *)
Definition indent (line : str) : str :=
  take (length line - length (lstrip line)) line.

(** How many characters [uncomment_line] takes out of a line. *)
Definition marker_width (line : str) : nat :=
  if startswith (strip line) (lit "// ") then 3
  else if startswith (strip line) (lit "//") then 2
  else 0.

(** Number of occurrences of a character. *)
Definition count_char (c : N) (s : str) : nat := count_occ N.eq_dec s c.

(** The writes among some file operations. *)
Definition writes (evs : list event) : list event :=
  filter (fun e => is_write e = true) evs.

(** File operations that are opens, each followed at once by at most one
    write, of the path just opened. *)
Fixpoint paired (evs : list event) : bool :=
  match evs with
  | [] => true
  | Written _ _ :: _ => false
  | Damaged _ :: _ => false
  | Opened_r p :: rest =>
      match rest with
      | Written q _ :: rest' => bool_decide (p = q) && paired rest'
      | _ => paired rest
      end
  end.

(** Two lists of lines for the classifier: one with a blank line, in
    another order. *)
Definition sample_lines : list str :=
  [lit "// a" ++ [10%N]; [10%N]; lit "b" ++ [10%N]].

Definition sample_lines_shuffled : list str :=
  [lit "b" ++ [10%N]; lit "// a" ++ [10%N]].

(** Worlds in which one target file of the sample walk cannot be opened,
    does not decode, or is read-only. *)
Definition sample_world_unreadable : world :=
  World (delete (TARGET_DIR ++ lit "/lib/b.tsx") sample_names) sample_disk [] [].

Definition sample_world_undecodable : world :=
  World sample_names (<[3%N := File Undecodable Accepts]> sample_disk) [] [].

Definition sample_world_read_only : world :=
  World sample_names (<[1%N := File (Text sample_text) Refuses]> sample_disk) [] [].

(** A world in which [a.ts] is a link to [notes.md]. *)
Definition sample_world_linked : world :=
  World (<[TARGET_DIR ++ lit "/a.ts" := 2%N]> sample_names) sample_disk [] [].

(** A world in which [lib/c.ts] is a link to [a.ts], a file whose line
    carries the marker twice. *)
Definition sample_world_twice : world :=
  World (<[TARGET_DIR ++ lit "/lib/c.ts" := 1%N]> sample_names)
        (<[1%N := File (Text nested_text) Accepts]> sample_disk) [] [].

(** Worlds whose one file is on the boundary, and just above it. *)
Definition boundary_world : world :=
  World {[ TARGET_DIR ++ lit "/a.ts" := 1%N ]}
        {[ 1%N := File (Text boundary_text) Accepts ]} [] [].

Definition above_boundary_world : world :=
  World {[ TARGET_DIR ++ lit "/a.ts" := 1%N ]}
        {[ 1%N := File (Text above_boundary_text) Accepts ]} [] [].

(** The world the sample run ends in. *)
Definition sample_world_after : world := snd (main sample_os_walk sample_world).

(** ** Strings: prefixes, stripping, replacing *)

Section Strings.

Implicit Types (s t p old new : str) (c : N).

Lemma startswith_iff s p : startswith s p = true <-> exists r, s = p ++ r.
Proof.
  revert s; induction p as [|a p IH]; intros s; simpl.
  - split; [by exists s | done].
  - destruct s as [|c s]; simpl.
    + split; [discriminate | intros [r Hr]; discriminate].
    + rewrite andb_true_iff, N.eqb_eq, IH. split.
      * intros [-> [r ->]]. eauto.
      * intros [r Hr]. injection Hr as -> ->. eauto.
Qed.

Lemma startswith_app s p : startswith (p ++ s) p = true.
Proof. apply startswith_iff; eauto. Qed.

(** A prefix of a prefix. *)
Lemma startswith_app_l s t p : startswith s p = true -> startswith (s ++ t) p = true.
Proof.
  rewrite !startswith_iff. intros [r ->]. exists (r ++ t). by rewrite app_assoc.
Qed.

Lemma lstrip_split s :
  exists ws, s = ws ++ lstrip s /\ forallb isspace ws = true.
Proof.
  induction s as [|c s [ws [Hs Hws]]]; simpl.
  - exists []. split; reflexivity.
  - destruct (isspace c) eqn:Hc.
    + exists (c :: ws). simpl. rewrite Hc, Hws. split; [by f_equal | done].
    + exists []. split; reflexivity.
Qed.

Lemma lstrip_spaces_app ws s : forallb isspace ws = true -> lstrip (ws ++ s) = lstrip s.
Proof.
  induction ws as [|c ws IH]; simpl; [done |].
  intros [Hc Hws]%andb_true_iff. by rewrite Hc, IH.
Qed.

Lemma lstrip_nonspace c s : isspace c = false -> lstrip (c :: s) = c :: s.
Proof. intros Hc. simpl. by rewrite Hc. Qed.

Lemma rstrip_split s :
  exists ws, s = rstrip s ++ ws /\ forallb isspace ws = true.
Proof.
  unfold rstrip. destruct (lstrip_split (rev s)) as [ws [Hs Hws]].
  exists (rev ws). split.
  - rewrite <- rev_app_distr, <- Hs. by rewrite rev_involutive.
  - rewrite forallb_forall in *. intros x Hx. apply Hws. by apply in_rev.
Qed.

Lemma startswith_rstrip s p : startswith (rstrip s) p = true -> startswith s p = true.
Proof.
  intros H. destruct (rstrip_split s) as [ws [Hs _]]. rewrite Hs.
  by apply startswith_app_l.
Qed.

Lemma startswith_strip s p :
  startswith (strip s) p = true -> startswith (lstrip s) p = true.
Proof. apply startswith_rstrip. Qed.

Lemma replace1_hit s old new :
  startswith s old = true -> replace1 s old new = new ++ drop (length old) s.
Proof. intros H. destruct s; simpl; by rewrite H. Qed.

Lemma replace1_miss_cons c s old new :
  startswith (c :: s) old = false ->
  replace1 (c :: s) old new = c :: replace1 s old new.
Proof. intros H. cbn [replace1]. by rewrite H. Qed.

(** The leftmost occurrence is the one replaced. *)
Lemma replace1_first s old new :
  (exists pre post, s = pre ++ old ++ post) ->
  exists pre post, first_occurrence s old pre post /\ replace1 s old new = pre ++ new ++ post.
Proof.
  induction s as [|c s IH]; intros (pre & post & Hs).
  - symmetry in Hs. apply app_eq_nil in Hs as [-> [-> ->]%app_eq_nil].
    exists [], []. split; [split; [done | intros; simpl; lia] | done].
  - destruct (startswith (c :: s) old) eqn:Hsw.
    + rewrite replace1_hit by done.
      apply startswith_iff in Hsw as [r Hr].
      exists [], r. split; [split; [done | intros; simpl; lia] |].
      rewrite Hr, drop_app_length. done.
    + rewrite replace1_miss_cons by done.
      destruct pre as [|a pre].
      { simpl in Hs. rewrite Hs, startswith_app in Hsw. discriminate. }
      injection Hs as <- Hs.
      destruct IH as (pre0 & post0 & [Heq Hmin] & Hrep); [by eauto |].
      exists (c :: pre0), post0. split; [split |].
      * simpl. by f_equal.
      * intros pre' post' Hs'. destruct pre' as [|a' pre'].
        { simpl in Hs'. rewrite Hs', startswith_app in Hsw. discriminate. }
        injection Hs' as <- Hs'. simpl. apply Hmin in Hs'. lia.
      * simpl. by f_equal.
Qed.

Lemma replace1_length s old : length (replace1 s old []) <= length s.
Proof.
  induction s as [|c s IH]; cbn [replace1].
  - destruct (startswith [] old); simpl; [rewrite length_drop |]; simpl; lia.
  - destruct (startswith (c :: s) old); simpl; [rewrite length_drop; simpl |]; lia.
Qed.

Lemma replace1_sublist s old : sublist (replace1 s old []) s.
Proof.
  induction s as [|c s IH]; cbn [replace1].
  - destruct (startswith [] old); simpl; [apply sublist_drop | done].
  - destruct (startswith (c :: s) old); simpl; [apply sublist_drop |].
    by apply sublist_skip.
Qed.

(** Leading whitespace is never the start of an occurrence of a pattern
    that begins with a character other than whitespace. *)
Lemma replace1_skip_spaces ws s a old new :
  forallb isspace ws = true -> isspace a = false ->
  replace1 (ws ++ s) (a :: old) new = ws ++ replace1 s (a :: old) new.
Proof.
  intros Hws Ha. induction ws as [|c ws IH]; [done |].
  simpl in Hws. apply andb_true_iff in Hws as [Hc Hws].
  change ((c :: ws) ++ s) with (c :: (ws ++ s)).
  rewrite replace1_miss_cons; [by rewrite IH |].
  simpl. destruct (N.eqb_spec c a) as [-> |]; [congruence | done].
Qed.

Lemma lstrip_app_nonblank s t :
  existsb (fun c => negb (isspace c)) s = true -> lstrip (s ++ t) = lstrip s ++ t.
Proof.
  induction s as [|c s IH]; simpl; [discriminate |].
  destruct (isspace c); simpl; [exact IH | done].
Qed.

Lemma rstrip_app_nonblank s t :
  existsb (fun c => negb (isspace c)) t = true -> rstrip (s ++ t) = s ++ rstrip t.
Proof.
  intros H. unfold rstrip. rewrite rev_app_distr, lstrip_app_nonblank.
  - by rewrite rev_app_distr, rev_involutive.
  - apply existsb_exists in H as (c & Hc & Hs). apply existsb_exists.
    exists c. split; [by apply in_rev in Hc | done].
Qed.

End Strings.

(** ** The per-line transform *)

Section UncommentLine.

Implicit Types (line ws rest : str).

Lemma replace1_marker ws a old rest :
  forallb isspace ws = true -> isspace a = false ->
  replace1 (ws ++ (a :: old) ++ rest) (a :: old) [] = ws ++ rest.
Proof.
  intros Hws Ha. rewrite replace1_skip_spaces by done.
  rewrite replace1_hit by apply startswith_app.
  by rewrite drop_app_length.
Qed.

(** A line whose stripped form starts with [p] is leading whitespace
    followed by [p]. *)
Lemma strip_startswith_split line p :
  startswith (strip line) p = true ->
  exists ws rest, forallb isspace ws = true /\ line = ws ++ p ++ rest.
Proof.
  intros H%startswith_strip%startswith_iff. destruct H as [rest Hrest].
  destruct (lstrip_split line) as (ws & Hline & Hws).
  exists ws, rest. by rewrite <- Hrest.
Qed.

(** The three branches of [uncomment_line], with the line cut at the marker. *)
Lemma uncomment_line_cases line :
  (startswith (strip line) (lit "// ") = true /\
   exists ws rest, forallb isspace ws = true /\
     line = ws ++ lit "// " ++ rest /\ uncomment_line line = ws ++ rest)
  \/ (startswith (strip line) (lit "// ") = false /\
      startswith (strip line) (lit "//") = true /\
      exists ws rest, forallb isspace ws = true /\
        line = ws ++ lit "//" ++ rest /\ uncomment_line line = ws ++ rest)
  \/ (startswith (strip line) (lit "// ") = false /\
      startswith (strip line) (lit "//") = false /\
      uncomment_line line = line).
Proof.
  unfold uncomment_line.
  destruct (startswith (strip line) (lit "// ")) eqn:H3.
  - left. split; [done |].
    destruct (strip_startswith_split _ _ H3) as (ws & rest & Hws & Hline).
    exists ws, rest. repeat split; [done.. |].
    rewrite Hline at 1. by apply replace1_marker.
  - right. destruct (startswith (strip line) (lit "//")) eqn:H2.
    + left. repeat split; [done.. |].
      destruct (strip_startswith_split _ _ H2) as (ws & rest & Hws & Hline).
      exists ws, rest. repeat split; [done.. |].
      rewrite Hline at 1. by apply replace1_marker.
    + right. done.
Qed.

Lemma uncomment_line_length line : length (uncomment_line line) <= length line.
Proof.
  unfold uncomment_line.
  destruct (startswith _ _); [apply replace1_length |].
  destruct (startswith _ _); [apply replace1_length | done].
Qed.

Lemma uncomment_line_sublist line : sublist (uncomment_line line) line.
Proof.
  unfold uncomment_line.
  destruct (startswith _ _); [apply replace1_sublist |].
  destruct (startswith _ _); [apply replace1_sublist | done].
Qed.

(** A comment-marked line loses at least the two characters of the marker. *)
Lemma uncomment_line_shorter line :
  startswith (strip line) (lit "//") = true ->
  length (uncomment_line line) + 2 <= length line.
Proof.
  intros H.
  destruct (uncomment_line_cases line)
    as [(_ & ws & rest & _ & Hl & ->) | [(_ & _ & ws & rest & _ & Hl & ->) | (_ & H' & _)]].
  - rewrite Hl, !length_app. simpl. lia.
  - rewrite Hl, !length_app. simpl. lia.
  - congruence.
Qed.

(** No occurrence of the marker starts inside the leading whitespace. *)
Lemma spaces_before_first ws a p rest :
  forallb isspace ws = true -> isspace a = false ->
  first_occurrence (ws ++ (a :: p) ++ rest) (a :: p) ws rest.
Proof.
  intros Hws Ha. split; [done |]. intros pre' post' Heq.
  destruct (le_lt_dec (length ws) (length pre')) as [| Hlt]; [done |]. exfalso.
  apply (f_equal (fun l : list N => l !! length pre')) in Heq. cbv beta in Heq.
  rewrite lookup_app_l in Heq by done.
  change (pre' ++ (a :: p) ++ post') with (pre' ++ a :: (p ++ post')) in Heq.
  rewrite list_lookup_middle in Heq by done.
  rewrite forallb_forall in Hws. specialize (Hws a).
  rewrite Hws in Ha; [discriminate |].
  apply list_elem_of_In. by eapply list_elem_of_lookup_2.
Qed.

(** The occurrence that [replace] finds is the marker itself: nothing
    before it can match, being whitespace. *)
Lemma marker_is_first_occurrence line a p pre post :
  isspace a = false ->
  startswith (strip line) (a :: p) = true ->
  first_occurrence line (a :: p) pre post ->
  forallb isspace pre = true.
Proof.
  intros Ha Hsw [Heq Hmin].
  destruct (strip_startswith_split _ _ Hsw) as (ws & rest & Hws & Hline).
  specialize (Hmin _ _ Hline).
  assert (Hpre : pre = take (length pre) ws).
  { apply (f_equal (take (length pre))) in Heq.
    rewrite take_app_length, Hline, take_app_le in Heq by done. done. }
  rewrite Hpre. rewrite forallb_forall in *. intros c Hc. apply Hws.
  apply list_elem_of_In in Hc. apply list_elem_of_In.
  eapply elem_of_sublist; [exact Hc | apply sublist_take].
Qed.

(** C2. The per-line transform makes three checks in order, the first
    match winning: when the stripped line starts with the marker and a
    space, the leftmost occurrence of "// " in the raw line is removed;
    else when it starts with the marker, the leftmost occurrence of "//" is
    removed; else the line is returned as it is.  The removal is that of the
    leftmost occurrence: no occurrence starts before the one cut out. *)
Theorem uncomment_line_first_match (line : str) :
  (startswith (strip line) (lit "// ") = true ->
     uncomment_line line = replace1 line (lit "// ") [] /\
     exists pre post,
       first_occurrence line (lit "// ") pre post /\ uncomment_line line = pre ++ post)
  /\ (startswith (strip line) (lit "// ") = false ->
      startswith (strip line) (lit "//") = true ->
        uncomment_line line = replace1 line (lit "//") [] /\
        exists pre post,
          first_occurrence line (lit "//") pre post /\ uncomment_line line = pre ++ post)
  /\ (startswith (strip line) (lit "// ") = false ->
      startswith (strip line) (lit "//") = false ->
        uncomment_line line = line).
Proof.
  unfold uncomment_line. split; [| split].
  - intros H. rewrite H. split; [done |].
    destruct (strip_startswith_split _ _ H) as (ws & rest & _ & Hline).
    destruct (replace1_first line (lit "// ") []) as (pre & post & Hfirst & Hrep); [by eauto |].
    by exists pre, post.
  - intros H3 H2. rewrite H3, H2. split; [done |].
    destruct (strip_startswith_split _ _ H2) as (ws & rest & _ & Hline).
    destruct (replace1_first line (lit "//") []) as (pre & post & Hfirst & Hrep); [by eauto |].
    by exists pre, post.
  - by intros -> ->.
Qed.

(** When only whitespace follows the marker and its space, the space
    belongs to the stripped-off end: the stripped form is the bare marker,
    the second check fires and the space stays. *)
Lemma strip_marker_blank_rest ws rest :
  forallb isspace ws = true -> forallb isspace rest = true ->
  strip (ws ++ lit "// " ++ rest) = lit "//".
Proof.
  intros Hws Hrest.
  unfold strip. rewrite lstrip_spaces_app by done.
  change (lit "// " ++ rest) with (47%N :: (lit "/ " ++ rest)).
  rewrite lstrip_nonspace by done. unfold rstrip.
  change (47%N :: (lit "/ " ++ rest)) with (lit "// " ++ rest).
  rewrite rev_app_distr, lstrip_spaces_app; [done |].
  rewrite forallb_forall in *. intros c Hc. apply Hrest. by apply in_rev.
Qed.

Lemma uncomment_line_marker_blank_rest ws rest :
  forallb isspace ws = true -> forallb isspace rest = true ->
  uncomment_line (ws ++ lit "// " ++ rest) = ws ++ lit " " ++ rest.
Proof.
  intros Hws Hrest.
  unfold uncomment_line. rewrite strip_marker_blank_rest by done.
  change (startswith (lit "//") (lit "// ")) with false.
  change (startswith (lit "//") (lit "//")) with true. cbv iota.
  change (ws ++ lit "// " ++ rest) with (ws ++ (47%N :: [47%N]) ++ (lit " " ++ rest)).
  by apply replace1_marker.
Qed.

(** C7, as the code has it. The line "  // foo" becomes "  foo"; in
    general, for leading whitespace followed by the marker, a space and a
    rest that is not blank, the first check fires, the occurrence of "// "
    removed is the one right after the whitespace, and the whitespace and
    the rest are kept.  When the rest is blank, the stripped form is the
    bare marker: the second check fires, only "//" is removed and the
    space stays. *)
Theorem uncomment_line_indented_marker :
  uncomment_line (lit "  // foo") = lit "  foo"
  /\ (forall ws rest,
        forallb isspace ws = true ->
        existsb (fun c => negb (isspace c)) rest = true ->
        startswith (strip (ws ++ lit "// " ++ rest)) (lit "// ") = true
        /\ first_occurrence (ws ++ lit "// " ++ rest) (lit "// ") ws rest
        /\ uncomment_line (ws ++ lit "// " ++ rest) = ws ++ rest)
  /\ (forall ws rest,
        forallb isspace ws = true ->
        forallb isspace rest = true ->
        startswith (strip (ws ++ lit "// " ++ rest)) (lit "// ") = false
        /\ startswith (strip (ws ++ lit "// " ++ rest)) (lit "//") = true
        /\ first_occurrence (ws ++ lit "// " ++ rest) (lit "//") ws (lit " " ++ rest)
        /\ uncomment_line (ws ++ lit "// " ++ rest) = ws ++ lit " " ++ rest).
Proof.
  split; [reflexivity |]. split.
  - intros ws rest Hws Hrest.
    assert (Hsw : startswith (strip (ws ++ lit "// " ++ rest)) (lit "// ") = true).
    { unfold strip. rewrite lstrip_spaces_app by done.
      change (lit "// " ++ rest) with (47%N :: (lit "/ " ++ rest)).
      rewrite lstrip_nonspace by done.
      change (47%N :: (lit "/ " ++ rest)) with (lit "// " ++ rest).
      rewrite rstrip_app_nonblank by done. apply startswith_app. }
    assert (Hrep : uncomment_line (ws ++ lit "// " ++ rest) = ws ++ rest).
    { unfold uncomment_line. rewrite Hsw. by apply replace1_marker. }
    split; [done |]. split; [| done]. by apply (spaces_before_first ws 47%N (lit "/ ")).
  - intros ws rest Hws Hrest. rewrite strip_marker_blank_rest by done.
    split; [done |]. split; [done |].
    split; [| by apply uncomment_line_marker_blank_rest].
    by apply (spaces_before_first ws 47%N [47%N] (lit " " ++ rest)).
Qed.

(** C7 as stated fails: in the line "  // " with its line end, leading
    whitespace is followed by the marker and a space, yet only the marker
    is removed and the space stays. *)
Lemma marker_before_blank_keeps_space :
  forallb isspace (lit "  ") = true
  /\ lit "  // " ++ [10%N] = lit "  " ++ lit "// " ++ [10%N]
  /\ uncomment_line (lit "  // " ++ [10%N]) = lit "   " ++ [10%N]
  /\ uncomment_line (lit "  // " ++ [10%N]) <> lit "  " ++ [10%N]
  /\ uncomment_line (lit "  // ") = lit "   ".
Proof. vm_compute. repeat split. discriminate. Qed.



(** C10. The transformed line is never longer than the line: it is the
    line itself or the line with the two or three characters of one marker
    taken out, so it is a subsequence of the line. *)
Theorem uncomment_line_never_longer (line : str) :
  length (uncomment_line line) <= length line
  /\ sublist (uncomment_line line) line
  /\ (length (uncomment_line line) = length line
      \/ length (uncomment_line line) + 2 = length line
      \/ length (uncomment_line line) + 3 = length line).
Proof.
  split; [apply uncomment_line_length |]. split; [apply uncomment_line_sublist |].
  destruct (uncomment_line_cases line)
    as [(_ & ws & rest & _ & Hl & ->) | [(_ & _ & ws & rest & _ & Hl & ->) | (_ & _ & ->)]].
  - right. right. rewrite Hl, !length_app. simpl. lia.
  - right. left. rewrite Hl, !length_app. simpl. lia.
  - by left.
Qed.

End UncommentLine.

(** ** Binary64: the comparison with 0.95

    The source divides two lengths as floats and compares with the float
    nearest to 0.95.  Rounding to nearest is followed here through Rocq's
    specification of the primitive floats, down to integer arithmetic: for
    fewer than 2^52 lines the outcome is that of the exact comparison of
    the quotient with 19/20. *)

Section Binary64.

Local Open Scope Z_scope.

Lemma digits2_pos_bounds p :
  2 ^ (Zpos (digits2_pos p) - 1) <= Zpos p < 2 ^ Zpos (digits2_pos p).
Proof.
  induction p as [p IH | p IH |]; cbn [digits2_pos].
  - rewrite Pos2Z.inj_succ.
    replace (Z.succ (Zpos (digits2_pos p)) - 1) with (Z.succ (Zpos (digits2_pos p) - 1)) by lia.
    rewrite !Z.pow_succ_r by lia. lia.
  - rewrite Pos2Z.inj_succ.
    replace (Z.succ (Zpos (digits2_pos p)) - 1) with (Z.succ (Zpos (digits2_pos p) - 1)) by lia.
    rewrite !Z.pow_succ_r by lia. lia.
  - simpl. lia.
Qed.

Lemma digits2_pos_unique p d :
  2 ^ (d - 1) <= Zpos p < 2 ^ d -> Zpos (digits2_pos p) = d.
Proof.
  intros H. pose proof (digits2_pos_bounds p) as Hb.
  assert (Hd : 1 <= d).
  { destruct (Z_lt_le_dec d 1) as [Hlt |]; [| done].
    exfalso. assert (2 ^ d <= 1); [| lia].
    destruct (Z.eq_dec d 0) as [-> |]; [simpl; lia |].
    rewrite Z.pow_neg_r by lia. lia. }
  assert (Z.log2 (Zpos p) = d - 1).
  { apply Z.log2_unique; [lia |]. replace (Z.succ (d - 1)) with d by lia. done. }
  assert (Z.log2 (Zpos p) = Zpos (digits2_pos p) - 1).
  { apply Z.log2_unique; [lia |].
    replace (Z.succ (Zpos (digits2_pos p) - 1)) with (Zpos (digits2_pos p)) by lia. done. }
  lia.
Qed.

Lemma Zdigits2_53 q : 2 ^ 52 <= q < 2 ^ 53 -> Zdigits2 q = 53.
Proof.
  intros H. destruct q as [|p|p]; try (simpl in H; lia).
  simpl. apply digits2_pos_unique. simpl. lia.
Qed.

Lemma Zdigits2_54 q : 2 ^ 53 <= q < 2 ^ 54 -> Zdigits2 q = 54.
Proof.
  intros H. destruct q as [|p|p]; try (simpl in H; lia).
  simpl. apply digits2_pos_unique. simpl. lia.
Qed.

Lemma fexp_normal e : -1021 <= e -> fexp prec emax e = e - 53.
Proof. unfold fexp, emin, prec, emax. lia. Qed.

(** The second rounding step: a significand of 53 bits is kept, 2^53 is
    renormalised. *)
Lemma round_stage2 sx m1 E :
  2 ^ 52 <= m1 <= 2 ^ 53 -> -1074 <= E -> E + 1 <= 971 ->
  (let '(mrs, e) := shr_fexp prec emax m1 E loc_Exact in
   match shr_m mrs with
   | Z0 => S754_zero sx
   | Zpos m => if Z.leb e (Z.sub emax prec) then S754_finite sx m e else S754_infinity sx
   | _ => S754_nan
   end) =
  if m1 <? 2 ^ 53 then S754_finite sx (Z.to_pos m1) E
  else S754_finite sx (Z.to_pos (2 ^ 52)) (E + 1).
Proof.
  intros Hm HE1 HE2. unfold shr_fexp.
  destruct (Z.ltb_spec m1 (2 ^ 53)) as [Hlt | Hge].
  - rewrite Zdigits2_53 by lia. rewrite fexp_normal by lia.
    replace (53 + E - 53 - E) with 0 by lia. cbn [shr shr_record_of_loc shr_m].
    destruct m1 as [|p|p]; try (simpl in Hm; lia).
    replace (E <=? emax - prec) with true; [done |].
    symmetry. apply Z.leb_le. unfold emax, prec. lia.
  - assert (m1 = 2 ^ 53) as -> by lia.
    rewrite Zdigits2_54 by (simpl; lia). rewrite fexp_normal by lia.
    replace (54 + E - 53 - E) with 1 by lia.
    cbn -[Z.add Z.leb]. replace (E + 1 <=? emax - prec) with true; [done |].
    symmetry. apply Z.leb_le. unfold emax, prec. lia.
Qed.

Lemma shr_record_of_loc_m m l : shr_m (shr_record_of_loc m l) = m.
Proof. by destruct l as [|[]]. Qed.

Lemma loc_of_shr_record_of_loc m l : loc_of_shr_record (shr_record_of_loc m l) = l.
Proof. by destruct l as [|[]]. Qed.

Lemma round_nearest_even_bounds m l :
  m <= round_nearest_even m l <= m + 1.
Proof. destruct l as [|[]]; simpl; try lia. destruct (Z.even m); lia. Qed.

(** A quotient of 53 bits is rounded in place. *)
Lemma round_aux_53 sx q E l :
  2 ^ 52 <= q < 2 ^ 53 -> -1074 <= E -> E + 1 <= 971 ->
  binary_round_aux prec emax sx q E l =
  if round_nearest_even q l <? 2 ^ 53
  then S754_finite sx (Z.to_pos (round_nearest_even q l)) E
  else S754_finite sx (Z.to_pos (2 ^ 52)) (E + 1).
Proof.
  intros Hq HE1 HE2. unfold binary_round_aux. unfold shr_fexp at 1.
  rewrite Zdigits2_53, fexp_normal by lia.
  replace (53 + E - 53 - E) with 0 by lia. cbn [shr].
  rewrite shr_record_of_loc_m, loc_of_shr_record_of_loc.
  pose proof (round_nearest_even_bounds q l).
  apply round_stage2; lia.
Qed.

(** What one shift to the right leaves: the quotient halved, its last bit
    as the rounding bit, and whether anything was lost before. *)
Lemma shr_1_spec q l :
  0 < q ->
  shr_1 (shr_record_of_loc q l) =
  Build_shr_record (q / 2) (Z.odd q) (negb (is_exact l)).
Proof.
  intros Hq. destruct q as [|[p|p|]|]; try lia; destruct l as [|[]]; simpl; f_equal.
  all: try done.
  all: first [ apply Z.div_unique with (r := 1); lia | apply Z.div_unique with (r := 0); lia ].
Qed.

(** A quotient of 54 bits is shifted once, then rounded. *)
Lemma round_aux_54 sx q E l :
  2 ^ 53 <= q < 2 ^ 54 -> -1074 <= E -> E + 2 <= 971 ->
  binary_round_aux prec emax sx q E l =
  let m1 := round_nearest_even (q / 2)
              (loc_of_shr_record (Build_shr_record (q / 2) (Z.odd q) (negb (is_exact l)))) in
  if m1 <? 2 ^ 53 then S754_finite sx (Z.to_pos m1) (E + 1)
  else S754_finite sx (Z.to_pos (2 ^ 52)) (E + 1 + 1).
Proof.
  intros Hq HE1 HE2. unfold binary_round_aux. unfold shr_fexp at 1.
  rewrite Zdigits2_54, fexp_normal by lia.
  replace (54 + E - 53 - E) with 1 by lia. cbn [shr iter_pos].
  rewrite shr_1_spec by lia. cbn [shr_m]. cbv zeta.
  pose proof (round_nearest_even_bounds (q / 2)
    (loc_of_shr_record (Build_shr_record (q / 2) (Z.odd q) (negb (is_exact l))))).
  assert (2 ^ 52 <= q / 2 < 2 ^ 53).
  { split; [apply Z.div_le_lower_bound | apply Z.div_lt_upper_bound]; lia. }
  apply round_stage2; lia.
Qed.

Lemma new_location_spec n r :
  0 < n -> 0 <= r < n ->
  new_location n r = if r =? 0 then loc_Exact else loc_Inexact (2 * r ?= n).
Proof.
  intros Hn Hr. unfold new_location, new_location_even, new_location_odd.
  destruct (Z.even n) eqn:Hev; destruct (Z.eqb_spec r 0) as [-> | Hr0]; try done.
  f_equal. rewrite <- Z.negb_odd in Hev.
  assert (Hodd : Z.odd n = true) by (by destruct (Z.odd n)).
  apply Z.odd_spec in Hodd as [h Hh].
  destruct (Z.compare_spec (2 * r + 1) n), (Z.compare_spec (2 * r) n); try done; lia.
Qed.

(** Rounding a quotient [q + r/n] to nearest even gives more than [MD]
    exactly when the quotient exceeds [MD + 1/2]. *)
Lemma round_gt_MD q r n :
  0 < n -> 0 <= r < n ->
  MD < round_nearest_even q (new_location n r) <-> (2 * MD + 1) * n < 2 * (q * n + r).
Proof.
  intros Hn Hr. rewrite new_location_spec by done. unfold MD.
  destruct (Z.eqb_spec r 0) as [-> | Hr0]; cbn [round_nearest_even].
  - nia.
  - destruct (Z.compare_spec (2 * r) n) as [Heq | Hlt | Hgt].
    + destruct (Z.even q) eqn:Hev.
      * nia.
      * rewrite <- Z.negb_odd in Hev. apply negb_false_iff, Z.odd_spec in Hev as [h ->]. nia.
    + nia.
    + nia.
Qed.

(** The same after one shift: more than [MD] exactly when half the
    quotient exceeds [MD + 1/2]. *)
Lemma round_shift_gt_MD q r n :
  0 < n -> 0 <= r < n -> 0 <= q ->
  MD < round_nearest_even (q / 2)
         (loc_of_shr_record
            (Build_shr_record (q / 2) (Z.odd q) (negb (is_exact (new_location n r)))))
  <-> (2 * MD + 1) * n < q * n + r.
Proof.
  intros Hn Hr Hq. rewrite new_location_spec by done. unfold MD.
  pose proof (Z.div_mod q 2 ltac:(lia)) as Hdiv. rewrite Zmod_odd in Hdiv.
  set (h := q / 2) in *.
  destruct (Z.odd q); destruct (Z.eqb_spec r 0) as [-> | Hr0];
    cbn [is_exact negb loc_of_shr_record round_nearest_even].
  - destruct (Z.even h) eqn:Hev.
    + nia.
    + rewrite <- Z.negb_odd in Hev. apply negb_false_iff, Z.odd_spec in Hev as [h' Hh']. nia.
  - nia.
  - nia.
  - nia.
Qed.

Lemma Prim2SF_095 : Prim2SF f0_95 = S754_finite false (Z.to_pos MD) (-53).
Proof. vm_compute. reflexivity. Qed.

(** Comparing the constant with a rounded quotient. *)
Lemma ltb_MD_round m1 e :
  2 ^ 52 <= m1 <= 2 ^ 53 ->
  SFltb (S754_finite false (Z.to_pos MD) (-53))
    (if m1 <? 2 ^ 53 then S754_finite false (Z.to_pos m1) e
     else S754_finite false (Z.to_pos (2 ^ 52)) (e + 1))
  = (-53 <? e) || ((e =? -53) && (MD <? m1)).
Proof.
  intros Hm. unfold SFltb, SFcompare.
  destruct (Z.ltb_spec m1 (2 ^ 53)) as [Hlt | Hge].
  - destruct (Z.compare_spec (-53) e) as [<- | He | He].
    + change (Pos.compare_cont Eq (Z.to_pos MD) (Z.to_pos m1))
        with (Z.pos (Z.to_pos MD) ?= Z.pos (Z.to_pos m1))%Z.
      rewrite !Z2Pos.id by (unfold MD; lia).
      change (-53 <? -53) with false. change (-53 =? -53) with true. cbn [orb andb].
      destruct (Z.compare_spec MD m1), (Z.ltb_spec MD m1); try done; lia.
    + destruct (Z.ltb_spec (-53) e); [done | lia].
    + destruct (Z.ltb_spec (-53) e), (Z.eqb_spec e (-53)); try done; lia.
  - assert (m1 = 2 ^ 53) as -> by lia.
    change (MD <? 2 ^ 53) with true. rewrite andb_true_r.
    change (Pos.compare_cont Eq (Z.to_pos MD) (Z.to_pos (2 ^ 52))) with Gt.
    destruct (Z.compare_spec (-53) (e + 1)) as [He | He | He];
      destruct (Z.ltb_spec (-53) e), (Z.eqb_spec e (-53)); try done; lia.
Qed.

Lemma div_eucl_div_mod a b : Z.div_eucl a b = (a / b, a mod b).
Proof. unfold Z.div, Z.modulo. by destruct (Z.div_eucl a b). Qed.

(** The quotient of two normalised significands, before rounding. *)
Lemma SFdiv_core_normal m1 e1 m2 e2 :
  2 ^ 52 <= Zpos m1 < 2 ^ 53 -> 2 ^ 52 <= Zpos m2 < 2 ^ 53 ->
  -52 <= e1 <= 0 -> -52 <= e2 <= 0 ->
  SFdiv_core_binary prec emax (Zpos m1) e1 (Zpos m2) e2 =
  (Zpos m1 * 2 ^ 53 / Zpos m2, e1 - e2 - 53,
   new_location (Zpos m2) (Zpos m1 * 2 ^ 53 mod Zpos m2)).
Proof.
  intros H1 H2 He1 He2. unfold SFdiv_core_binary.
  rewrite !Zdigits2_53 by done. rewrite fexp_normal by lia.
  replace (Z.min (53 + e1 - (53 + e2) - 53) (e1 - e2)) with (e1 - e2 - 53) by lia.
  replace (e1 - e2 - (e1 - e2 - 53)) with 53 by lia.
  rewrite Z.shiftl_mul_pow2 by lia. by rewrite div_eucl_div_mod.
Qed.


(** Threshold arithmetic: [MD + 1/2] against 19/20, for fewer than 2^52
    lines. *)
Lemma threshold_exact a b :
  0 < b < 2 ^ 52 -> (2 * MD + 1) * b < 2 ^ 54 * a <-> 19 * b < 20 * a.
Proof. unfold MD. intros Hb. lia. Qed.

Lemma quotient_lt n1 n2 q r c :
  0 < n2 -> n1 * c = n2 * q + r -> 0 <= r < n2 -> 0 < c -> (q < c <-> n1 < n2).
Proof. intros. nia. Qed.

Lemma quotient_bounds n1 n2 q r :
  2 ^ 52 <= n1 < 2 ^ 53 -> 2 ^ 52 <= n2 < 2 ^ 53 ->
  n1 * 2 ^ 53 = n2 * q + r -> 0 <= r < n2 ->
  2 ^ 52 <= q < 2 ^ 54.
Proof. intros. nia. Qed.

Lemma scale_lt P x y : 0 < P -> x * P < y * P <-> x < y.
Proof. intros. symmetry. by apply Z.mul_lt_mono_pos_r. Qed.

(** The binary64 quotient of two integers below 2^52, given by their
    normalised significands, exceeds the constant exactly when the exact
    quotient exceeds 19/20. *)
Lemma SFdiv_gt_095 m1 e1 m2 e2 a b :
  0 < a <= b -> b < 2 ^ 52 ->
  -52 <= e1 <= 0 -> -52 <= e2 <= 0 ->
  Zpos m1 = a * 2 ^ (- e1) -> Zpos m2 = b * 2 ^ (- e2) ->
  2 ^ 52 <= Zpos m1 < 2 ^ 53 -> 2 ^ 52 <= Zpos m2 < 2 ^ 53 ->
  SFltb (S754_finite false (Z.to_pos MD) (-53))
        (SF64div (S754_finite false m1 e1) (S754_finite false m2 e2)) = true
  <-> 19 * b < 20 * a.
Proof.
  intros Hab Hb He1 He2 Hm1 Hm2 Hn1 Hn2.
  unfold SF64div, SFdiv. rewrite SFdiv_core_normal by done. cbn [xorb].
  set (n1 := Zpos m1) in *. set (n2 := Zpos m2) in *.
  pose proof (Z.div_mod (n1 * 2 ^ 53) n2 ltac:(lia)) as Hdiv.
  pose proof (Z.mod_pos_bound (n1 * 2 ^ 53) n2 ltac:(lia)) as Hr.
  set (q := n1 * 2 ^ 53 / n2) in *. set (r := n1 * 2 ^ 53 mod n2) in *.
  clearbody q r n1 n2.
  pose proof (quotient_bounds n1 n2 q r Hn1 Hn2 Hdiv Hr) as Hq.
  pose proof (quotient_lt n1 n2 q r (2 ^ 53) ltac:(lia) Hdiv Hr ltac:(lia)) as Hcase.
  (* the exponents: [e1 <= e2], and the ratio of the two scalings *)
  set (P2 := 2 ^ (- e2)) in *.
  assert (HP2 : 0 < P2) by (apply Z.pow_pos_nonneg; lia).
  assert (Hle : e1 <= e2).
  { destruct (Z_le_gt_dec e1 e2) as [| Hgt]; [done | exfalso].
    assert (HP : P2 = 2 ^ (- e1) * 2 ^ (e1 - e2))
      by (unfold P2; rewrite <- Z.pow_add_r by lia; f_equal; lia).
    assert (2 <= 2 ^ (e1 - e2)) by (apply (Z.pow_le_mono_r 2 1); lia).
    assert (0 < 2 ^ (- e1)) by (apply Z.pow_pos_nonneg; lia).
    set (P1 := 2 ^ (- e1)) in *. set (U := 2 ^ (e1 - e2)) in *. clearbody P1 U P2.
    subst P2. clear - Hab Hn1 Hn2 Hm1 Hm2 H H0.
    assert (n1 <= b * P1) by nia.
    assert (0 <= b * P1) by nia.
    assert (2 * (b * P1) <= b * P1 * U) by nia.
    replace (b * (P1 * U)) with (b * P1 * U) in Hm2 by ring. lia. }
  set (T := 2 ^ (e2 - e1)).
  assert (HP1 : 2 ^ (- e1) = T * P2)
    by (unfold T, P2; rewrite <- Z.pow_add_r by lia; f_equal; lia).
  rewrite HP1 in Hm1.
  assert (HT : (e1 = e2 /\ T = 1) \/ (e1 = e2 - 1 /\ T = 2) \/ (e1 <= e2 - 2 /\ 4 <= T)).
  { destruct (Z.eq_dec e1 e2) as [-> |]; [left; unfold T; rewrite Z.sub_diag; done |].
    destruct (Z.eq_dec e1 (e2 - 1)) as [-> |].
    - right; left. unfold T. replace (e2 - (e2 - 1)) with 1 by lia. done.
    - right; right. split; [lia |]. apply (Z.pow_le_mono_r 2 2); lia. }
  clearbody T P2.
  (* the two roundings in terms of [a], [b] and [T] *)
  assert (Hlt12 : n1 < n2 <-> a * T < b).
  { rewrite Hm1, Hm2. rewrite Z.mul_assoc. apply scale_lt; lia. }
  assert (H53 : (2 * MD + 1) * n2 < 2 * (q * n2 + r) <-> (2 * MD + 1) * b < 2 ^ 54 * (a * T)).
  { replace (q * n2 + r) with (n1 * 2 ^ 53) by lia. rewrite Hm1, Hm2.
    replace ((2 * MD + 1) * (b * P2)) with ((2 * MD + 1) * b * P2) by ring.
    replace (2 * (a * (T * P2) * 2 ^ 53)) with (2 ^ 54 * (a * T) * P2) by ring.
    apply scale_lt; lia. }
  assert (H54 : (2 * MD + 1) * n2 < q * n2 + r <-> (2 * MD + 1) * b < 2 ^ 53 * (a * T)).
  { replace (q * n2 + r) with (n1 * 2 ^ 53) by lia. rewrite Hm1, Hm2.
    replace ((2 * MD + 1) * (b * P2)) with ((2 * MD + 1) * b * P2) by ring.
    replace (a * (T * P2) * 2 ^ 53) with (2 ^ 53 * (a * T) * P2) by ring.
    apply scale_lt; lia. }
  assert (Hlt2 : a * T < 2 * b).
  { apply (scale_lt P2); [done |].
    replace (a * T * P2) with n1 by (rewrite Hm1; ring).
    replace (2 * b * P2) with (2 * n2) by (rewrite Hm2; ring). lia. }
  pose proof (threshold_exact a b ltac:(lia)) as Hth.
  assert (HaT : T = 1 \/ T = 2 \/ 4 * a <= a * T) by (clear - HT Hab; nia).
  set (aT := a * T) in *.
  destruct (Z_lt_le_dec q (2 ^ 53)) as [Hq53 | Hq54].
  - rewrite round_aux_53 by lia.
    pose proof (round_nearest_even_bounds q (new_location n2 r)) as Hrne.
    rewrite ltb_MD_round by lia.
    rewrite orb_true_iff, andb_true_iff, !Z.ltb_lt, Z.eqb_eq.
    rewrite round_gt_MD by lia. rewrite H53.
    clear Hdiv Hr Hm1 Hm2 H54 H53 Hrne. unfold MD in *.
    destruct HT as [[-> ->] | [[-> ->] | [? HT]]]; subst aT; try lia.
  - rewrite round_aux_54 by lia. cbv zeta.
    assert (Hh : 2 ^ 52 <= q / 2 < 2 ^ 53).
    { split; [apply Z.div_le_lower_bound | apply Z.div_lt_upper_bound]; lia. }
    pose proof (round_nearest_even_bounds (q / 2)
      (loc_of_shr_record
         (Build_shr_record (q / 2) (Z.odd q) (negb (is_exact (new_location n2 r)))))) as Hrne.
    rewrite ltb_MD_round by lia.
    rewrite orb_true_iff, andb_true_iff, !Z.ltb_lt, Z.eqb_eq.
    rewrite round_shift_gt_MD by lia. rewrite H54.
    clear Hdiv Hr Hm1 Hm2 H54 H53 Hrne Hh. unfold MD in *.
    destruct HT as [[-> ->] | [[-> ->] | [? HT]]]; subst aT; try lia.
Qed.

Lemma iter_xO_pow p k : Zpos (Pos.iter xO p k) = Zpos p * 2 ^ Zpos k.
Proof.
  induction k as [|k IH] using Pos.peano_ind.
  - simpl. lia.
  - rewrite Pos.iter_succ, Pos2Z.inj_xO, IH, Pos2Z.inj_succ, Z.pow_succ_r by lia. ring.
Qed.

(** A positive integer below 2^53 converts exactly: its binary64 value has
    the integer, shifted to 53 bits, as significand. *)
Lemma Prim2SF_of_Z a :
  0 < a < 2 ^ 53 ->
  exists m e,
    Prim2SF (of_uint63 (of_Z a)) = S754_finite false m e
    /\ 2 ^ 52 <= Zpos m < 2 ^ 53 /\ -52 <= e <= 0 /\ Zpos m = a * 2 ^ (- e).
Proof.
  intros Ha. rewrite of_uint63_spec, of_Z_spec, Z.mod_small
    by (change wB with (2 ^ 63); lia).
  destruct a as [|p|p]; try lia. cbn [binary_normalize]. unfold binary_round.
  pose proof (digits2_pos_bounds p) as Hd.
  set (d := Zpos (digits2_pos p)) in *.
  assert (Hd53 : 1 <= d <= 53).
  { split; [unfold d; lia |].
    destruct (Z_le_gt_dec d 53) as [| Hgt]; [done | exfalso].
    assert (2 ^ 53 <= 2 ^ (d - 1)) by (apply Z.pow_le_mono_r; lia). lia. }
  rewrite fexp_normal by lia. unfold shl_align.
  destruct (d + 0 - 53 - 0) as [|k|k] eqn:Hk; try lia.
  - assert (d = 53) as Hd' by lia. rewrite Hd' in Hd.
    rewrite round_aux_53 by (simpl in *; lia). cbn [round_nearest_even].
    destruct (Z.ltb_spec (Zpos p) (2 ^ 53)); [| lia].
    exists p, (d + 0 - 53). rewrite Hd'. repeat split; simpl in *; lia.
  - assert (Hkd : Zpos k = 53 - d) by lia.
    assert (Hpow : 2 ^ 52 = 2 ^ (d - 1) * 2 ^ Zpos k /\ 2 ^ 53 = 2 ^ d * 2 ^ Zpos k).
    { rewrite <- !Z.pow_add_r by lia. split; f_equal; lia. }
    assert (0 < 2 ^ Zpos k) by (apply Z.pow_pos_nonneg; lia).
    assert (Hmz : 2 ^ 52 <= Zpos (Pos.iter xO p k) < 2 ^ 53).
    { rewrite iter_xO_pow. destruct Hpow as [-> ->]. nia. }
    rewrite round_aux_53 by lia. cbn [round_nearest_even].
    destruct (Z.ltb_spec (Zpos (Pos.iter xO p k)) (2 ^ 53)); [| lia].
    exists (Pos.iter xO p k), (d + 0 - 53). rewrite Pos2Z.id.
    repeat split; try lia. rewrite iter_xO_pow. do 2 f_equal. lia.
Qed.

Lemma float_gt_095_zero (b : nat) : float_gt_095 0 b = false.
Proof.
  unfold float_gt_095, float_of_nat. rewrite FloatAxioms.ltb_spec, FloatAxioms.div_spec, Prim2SF_095.
  change (Prim2SF (of_uint63 (of_Z (Z.of_nat 0)))) with (S754_zero false).
  by destruct (Prim2SF _) as [[]|[]| |[] m e].
Qed.

(** The comparison of the source agrees with the exact one. *)
Lemma float_gt_095_exact (a b : nat) :
  (0 < b)%nat -> (a <= b)%nat -> Z.of_nat b < 2 ^ 52 ->
  float_gt_095 a b = true <-> (0.95 < exact_ratio a b)%Q.
Proof.
  intros Hb Hab Hlt.
  assert (Hq : (0.95 < exact_ratio a b)%Q <-> 19 * Z.of_nat b < 20 * Z.of_nat a).
  { unfold Qlt, exact_ratio. cbn [Qnum Qden]. lia. }
  rewrite Hq. destruct a as [|a'].
  { rewrite float_gt_095_zero. split; [done | lia]. }
  unfold float_gt_095, float_of_nat. rewrite FloatAxioms.ltb_spec, FloatAxioms.div_spec, Prim2SF_095.
  destruct (Prim2SF_of_Z (Z.of_nat (S a'))) as (m1 & e1 & -> & Hn1 & He1 & Hm1); [lia |].
  destruct (Prim2SF_of_Z (Z.of_nat b)) as (m2 & e2 & -> & Hn2 & He2 & Hm2); [lia |].
  apply (SFdiv_gt_095 m1 e1 m2 e2); try done; lia.
Qed.

End Binary64.

(** ** The classifier *)

Section Classifier.

Implicit Types (lines : list str) (text : str).

Lemma commented_le lines : length (commented lines) <= length (non_empty lines).
Proof. apply length_filter. Qed.

(** The classifier never raises: it answers [false] when no line is
    non-empty, and else compares the quotient of the two counts. *)
Lemma is_fully_commented_eq lines :
  is_fully_commented lines =
  Ok (truthy (non_empty lines)
      && float_gt_095 (length (commented lines)) (length (non_empty lines))).
Proof.
  unfold is_fully_commented. by destruct (non_empty lines) as [|l ls] eqn:E.
Qed.

Lemma qualifies_eq text :
  qualifies text =
  truthy (non_empty (lines_of text))
  && float_gt_095 (length (commented (lines_of text))) (length (non_empty (lines_of text))).
Proof. unfold qualifies. by rewrite is_fully_commented_eq. Qed.

Lemma truthy_iff {A} (l : list A) : truthy l = true <-> l <> [].
Proof. by destruct l. Qed.

Lemma qualifies_iff text :
  qualifies text = true <->
  non_empty (lines_of text) <> [] /\
  float_gt_095 (length (commented (lines_of text))) (length (non_empty (lines_of text))) = true.
Proof. by rewrite qualifies_eq, andb_true_iff, truthy_iff. Qed.

(** For any file a machine can hold, qualifying is having a non-empty line
    and an exact quotient above 19/20. *)
Lemma qualifies_iff_exact text :
  (Z.of_nat (length (non_empty (lines_of text))) < 2 ^ 52)%Z ->
  qualifies text = true <->
  non_empty (lines_of text) <> [] /\
  (0.95 < exact_ratio (length (commented (lines_of text))) (length (non_empty (lines_of text))))%Q.
Proof.
  intros Hlt. rewrite qualifies_iff.
  pose proof (commented_le (lines_of text)) as Hle.
  destruct (non_empty (lines_of text)) as [|l ls] eqn:E; [by split; intros [? _] |].
  rewrite float_gt_095_exact; [done | simpl; lia | done | done].
Qed.

(** A qualifying file has a comment-marked line. *)
Lemma qualifies_commented text : qualifies text = true -> commented (lines_of text) <> [].
Proof.
  intros [_ Hq]%qualifies_iff Hc. rewrite Hc in Hq. simpl in Hq.
  by rewrite float_gt_095_zero in Hq.
Qed.

Lemma non_empty_blank lines : Forall (fun l => strip l = []) lines -> non_empty lines = [].
Proof.
  unfold non_empty. induction 1 as [|l lines Hl _ IH]; [done |].
  rewrite filter_cons, Hl, IH. by rewrite decide_False.
Qed.

(** The comparison at the boundary, evaluated. *)
Example float_gt_095_boundary :
  float_gt_095 19 20 = false /\ float_gt_095 20 21 = true
  /\ float_gt_095 1900 2000 = false /\ float_gt_095 1901 2000 = true.
Proof. vm_compute. repeat split. Qed.

(** The scenarios of the specification. *)
Example scenario_all_commented :
  qualifies all_commented_text = true
  /\ run_once all_commented_text = concat (repeat (lit "const x = 1" ++ [10%N]) 21).
Proof. vm_compute. split; reflexivity. Qed.

Example scenario_boundary :
  length (non_empty (lines_of boundary_text)) = 20
  /\ length (commented (lines_of boundary_text)) = 19
  /\ qualifies boundary_text = false
  /\ run_once boundary_text = boundary_text.
Proof. vm_compute. repeat split. Qed.

Example scenario_above_boundary :
  length (non_empty (lines_of above_boundary_text)) = 21
  /\ length (commented (lines_of above_boundary_text)) = 20
  /\ qualifies above_boundary_text = true.
Proof. vm_compute. repeat split. Qed.

(** A comment-marked line is not blank, so the comment-marked lines are
    picked from all lines as from the non-empty ones. *)
Lemma commented_all_lines lines :
  commented lines = filter (fun l => startswith (strip l) (lit "//") = true) lines.
Proof.
  assert (Hne : forall l, startswith (strip l) (lit "//") = true -> truthy (strip l) = true).
  { intros l H. apply startswith_iff in H as [r ->]. done. }
  unfold commented, non_empty. induction lines as [|l lines IH]; [done |].
  rewrite !filter_cons. destruct (decide (startswith (strip l) (lit "//") = true)) as [H | H].
  - rewrite decide_True by auto. rewrite filter_cons, decide_True by done. by rewrite IH.
  - destruct (decide (truthy (strip l) = true)); [| done].
    rewrite filter_cons, decide_False by done. done.
Qed.

(** The classifier's two lengths are the two counts of the ratio. *)
Lemma length_non_empty lines : length (non_empty lines) = nonblank_count lines.
Proof.
  unfold non_empty, nonblank_count. f_equal. apply list_filter_iff.
  intros l. apply truthy_iff.
Qed.

Lemma length_commented lines : length (commented lines) = marked_count lines.
Proof. unfold marked_count. by rewrite commented_all_lines. Qed.

Lemma qualifies_counts text :
  qualifies text = true <->
  nonblank_count (lines_of text) <> 0 /\
  float_gt_095 (marked_count (lines_of text)) (nonblank_count (lines_of text)) = true.
Proof.
  rewrite qualifies_iff, <- length_non_empty, <- length_commented.
  assert (Hn : non_empty (lines_of text) <> [] <-> length (non_empty (lines_of text)) <> 0)
    by (by destruct (non_empty (lines_of text))).
  by rewrite Hn.
Qed.

Lemma counts_exact text :
  (Z.of_nat (nonblank_count (lines_of text)) < 2 ^ 52)%Z ->
  nonblank_count (lines_of text) <> 0 ->
  float_gt_095 (marked_count (lines_of text)) (nonblank_count (lines_of text)) = true <->
  (0.95 < exact_ratio (marked_count (lines_of text)) (nonblank_count (lines_of text)))%Q.
Proof.
  rewrite <- length_non_empty, <- length_commented. intros Hlt Hn.
  pose proof (commented_le (lines_of text)).
  apply float_gt_095_exact; [lia | done | done].
Qed.

End Classifier.

(** ** One file, then the whole walk *)

Section Run.

Implicit Types (w : world) (root file path text p q : str) (f : file).

(** A result is the pair of its parts. *)
Lemma pair_fst {A B} (x : A * B) a : fst x = a -> x = (a, snd x).
Proof. destruct x. by intros <-. Qed.

Lemma triple_fst {A B C} (x : A * (B * C)) a c :
  fst x = a -> snd (snd x) = c -> x = (a, (fst (snd x), c)).
Proof. destruct x as [? [? ?]]. by intros <- <-. Qed.

Lemma visit_skip root file st : is_target file = false -> visit root file st = (Ok tt, st).
Proof. intros H. destruct st as [w count]. unfold visit. fold (is_target file). by rewrite H. Qed.

Lemma file_at_names w p i : names w !! p = Some i -> file_at w p = disk w !! i.
Proof. unfold file_at. by intros ->. Qed.

Lemma file_at_Some w p f :
  file_at w p = Some f <-> exists i, names w !! p = Some i /\ disk w !! i = Some f.
Proof.
  unfold file_at. destruct (names w !! p) as [i |]; split.
  - by exists i.
  - by intros (j & [= <-] & ?).
  - done.
  - by intros (j & ? & ?).
Qed.

Lemma visit_unopenable root file w count :
  is_target file = true ->
  file_at w (os_path_join root file) = None ->
  visit root file (w, count) = (Raise (OSError (os_path_join root file)), (w, count)).
Proof.
  intros Ht Hf. unfold visit. fold (is_target file). rewrite Ht.
  unfold open_readlines, file_at in *.
  destruct (names w !! os_path_join root file) as [i |]; [| done]. by rewrite Hf.
Qed.

(** One visit of a target path that leads to a file. *)
Lemma visit_file root file w count i f :
  is_target file = true ->
  names w !! os_path_join root file = Some i ->
  disk w !! i = Some f ->
  visit root file (w, count) =
  ((if fine_file f then Ok tt else Raise (failure w (os_path_join root file))),
   (World (names w) (<[i := left_by f]> (disk w))
          (stdout w ++ (if announced_file f then [console_line (os_path_join root file)] else []))
          (trace w ++ events_of_file (os_path_join root file) f),
    count + (if announced_file f && accepts f then 1 else 0))).
Proof.
  intros Ht Hn Hd. unfold visit. fold (is_target file). rewrite Ht.
  set (p := os_path_join root file) in *.
  unfold failure. rewrite (file_at_names _ _ _ Hn), Hd.
  unfold open_readlines. rewrite Hn, Hd.
  unfold fine_file, announced_file, left_by, events_of_file, accepts.
  destruct f as [[text |] m]; cbn [contents on_write].
  2: { rewrite insert_id by done. rewrite app_nil_r, Nat.add_0_r. by destruct w. }
  fold (lines_of text). unfold qualifies, rewritten. rewrite is_fully_commented_eq.
  destruct (truthy _ && float_gt_095 _ _); cbn [negb orb andb].
  2: { rewrite insert_id by done. rewrite app_nil_r, Nat.add_0_r. by destruct w. }
  unfold open_writelines, print, log, store. cbn [names disk stdout trace].
  rewrite Hn, Hd. cbn [on_write]. fold console_line.
  destruct m; cbn [names disk stdout trace].
  - by rewrite <- app_assoc.
  - rewrite insert_id by done. by rewrite Nat.add_0_r.
  - by rewrite <- app_assoc, Nat.add_0_r.
Qed.


Lemma for_each_app {A S} (body : A -> S -> result unit * S) xs ys st :
  for_each body (xs ++ ys) st =
  match for_each body xs st with
  | (Ok _, st') => for_each body ys st'
  | (Raise e, st') => (Raise e, st')
  end.
Proof.
  revert st; induction xs as [|x xs IH]; intros st; simpl; [done |].
  destruct (body x st) as [[[] | e] st']; [apply IH | done].
Qed.

Lemma for_each_map {A B S} (f : A -> B) (body : B -> S -> result unit * S) xs st :
  for_each body (map f xs) st = for_each (fun x => body (f x)) xs st.
Proof.
  revert st; induction xs as [|x xs IH]; intros st; simpl; [done |].
  destruct (body (f x) st) as [[[] | e] st']; [apply IH | done].
Qed.

(** The nested loops of [main] visit the files of the walk one by one. *)
Lemma for_each_walk walk (st : world * nat) :
  for_each (fun '(root, dirs, files) => for_each (visit root) files) walk st =
  for_each (fun '(root, file) => visit root file) (walk_files walk) st.
Proof.
  revert st; induction walk as [|[[root dirs] fls] walk IH]; intros st; [done |].
  cbn [for_each walk_files flat_map]. rewrite for_each_app, for_each_map.
  destruct (for_each _ fls st) as [[[] | e] st']; [apply IH | done].
Qed.

Lemma paths_of_cons root file entries :
  paths_of ((root, file) :: entries) =
  if is_target file then os_path_join root file :: paths_of entries else paths_of entries.
Proof.
  unfold paths_of. rewrite filter_cons. cbn beta iota.
  destruct (decide (is_target file = true)) as [-> | ->%not_true_is_false]; done.
Qed.

Lemma main_eq os_walk w :
  main os_walk w =
  match for_each (fun '(root, file) => visit root file)
                 (walk_files (os_walk TARGET_DIR)) (w, 0) with
  | (Ok _, (w', count)) => (Ok tt, print (summary_line count) w')
  | (Raise e, (w', count)) => (Raise e, w')
  end.
Proof. unfold main. by rewrite for_each_walk. Qed.

(** Joining never moves an extension: the separator keeps the directory's
    characters out of the last component's suffix. *)
Lemma startswith_app_sep (f R e : str) :
  47%N ∉ e -> (R = [] \/ exists R', R = 47%N :: R') ->
  startswith (f ++ R) e = startswith f e.
Proof.
  revert f; induction e as [|x e IH]; intros f He HR; [done |].
  apply not_elem_of_cons in He as [Hx He].
  destruct f as [|c f]; simpl.
  - destruct HR as [-> | [R' ->]]; [done |].
    destruct (N.eqb_spec 47 x); [congruence | done].
  - by rewrite IH.
Qed.

Lemma endswith_join (a b ext : str) :
  47%N ∉ rev ext -> endswith (os_path_join a b) ext = endswith b ext.
Proof.
  intros He. unfold os_path_join.
  destruct (startswith b (lit "/")); [done |].
  unfold endswith at 2 3.
  destruct (negb (truthy a) || startswith (rev a) (rev (lit "/"))) eqn:E.
  - unfold endswith. rewrite rev_app_distr. apply startswith_app_sep; [done |].
    apply orb_true_iff in E as [E | E].
    + destruct a; [by left | discriminate].
    + right. apply startswith_iff in E as [r Hr]. by exists r.
  - unfold endswith. rewrite !rev_app_distr, <- app_assoc.
    apply startswith_app_sep; [done |]. right. by eexists.
Qed.

Lemma is_target_join root file : is_target (os_path_join root file) = is_target file.
Proof.
  unfold is_target. rewrite !endswith_join; [done | |].
  - vm_compute. intros H. by repeat (apply elem_of_cons in H as [H | H]; [discriminate |]; try apply elem_of_nil in H).
  - vm_compute. intros H. by repeat (apply elem_of_cons in H as [H | H]; [discriminate |]; try apply elem_of_nil in H).
Qed.

Lemma paths_of_target entries p : p ∈ paths_of entries -> is_target p = true.
Proof.
  unfold paths_of. intros ([root file] & -> & Hin)%list_elem_of_fmap.
  apply list_elem_of_filter in Hin as [Ht _]. by rewrite is_target_join.
Qed.

(** *** Files after a visit *)

Lemma file_at_insert w i f out tr q :
  file_at (World (names w) (<[i := f]> (disk w)) out tr) q =
  if decide (names w !! q = Some i) then Some f else file_at w q.
Proof.
  unfold file_at. cbn [names disk].
  destruct (names w !! q) as [j |] eqn:Hq.
  - destruct (decide (Some j = Some i)) as [[= ->] | Hne].
    + apply lookup_insert_eq.
    + apply lookup_insert_ne. congruence.
  - by rewrite decide_False.
Qed.

Lemma fine_left_by f : fine_file f = true -> fine_file (left_by f) = true.
Proof.
  unfold fine_file, left_by, accepts. destruct f as [[text |] m]; cbn [contents on_write]; [| done].
  destruct (qualifies text) eqn:Hq; cbn [negb orb].
  - destruct m; [| done..]. intros _. cbn [contents on_write]. apply orb_true_r.
  - intros _. cbn [contents on_write]. by rewrite Hq.
Qed.

(** After a visit that went well, a path leads to the file it led to, as
    it was, or to a file that is [fine] as before. *)
Lemma visited_fine w i f out tr q :
  disk w !! i = Some f -> fine_file f = true ->
  file_at (World (names w) (<[i := left_by f]> (disk w)) out tr) q = file_at w q
  \/ (fine (World (names w) (<[i := left_by f]> (disk w)) out tr) q = true
      /\ fine w q = true).
Proof.
  intros Hd Hf. unfold fine. rewrite file_at_insert.
  destruct (decide (names w !! q = Some i)) as [Hq | Hq]; [| by left].
  right. rewrite (file_at_names _ _ _ Hq), Hd. split; [by apply fine_left_by | done].
Qed.

Lemma fine_ext w1 w q :
  file_at w1 q = file_at w q \/ (fine w1 q = true /\ fine w q = true) ->
  fine w1 q = fine w q.
Proof. intros [H | [-> ->]]; [| done]. unfold fine. by rewrite H. Qed.

Lemma ending_ext w1 w ps :
  (forall q, q ∈ ps -> file_at w1 q = file_at w q \/ (fine w1 q = true /\ fine w q = true)) ->
  ending w1 ps = ending w ps /\ reached w1 ps = reached w ps.
Proof.
  induction ps as [|p ps IH]; intros H; [done |]. cbn [ending reached].
  destruct IH as [IH1 IH2]; [intros q Hq; apply H; by apply list_elem_of_further |].
  pose proof (H p (list_elem_of_here _ _)) as Hp.
  rewrite (fine_ext _ _ _ Hp), IH1, IH2.
  destruct (fine w p) eqn:Hf; [done |].
  destruct Hp as [Hp | [_ Hp]]; [| congruence].
  unfold failure. by rewrite Hp.
Qed.


Lemma pending_ext w1 w ps :
  (forall q, q ∈ ps -> file_at w1 q = file_at w q \/ (fine w1 q = true /\ fine w q = true)) ->
  pending w1 ps = pending w ps.
Proof.
  induction ps as [|p ps IH]; intros H; [done |]. cbn [pending].
  rewrite IH by (intros q Hq; apply H; by apply list_elem_of_further).
  pose proof (H p (list_elem_of_here _ _)) as Hp.
  rewrite (fine_ext _ _ _ Hp).
  destruct (fine w p) eqn:Hf; [done |].
  destruct Hp as [Hp | [_ Hp]]; [| congruence].
  unfold announced. by rewrite Hp.
Qed.

(** *** The file operations of one visit *)

Lemma writes_app evs evs' : writes (evs ++ evs') = writes evs ++ writes evs'.
Proof. apply filter_app. Qed.

Lemma writes_events_of_file p f :
  map (fun e => console_line (event_path e)) (writes (events_of_file p f)) =
  (if announced_file f && accepts f then [console_line p] else []).
Proof.
  unfold events_of_file, announced_file, accepts.
  destruct f as [[text |] m]; cbn [contents on_write]; [| done].
  destruct (qualifies text); [| done]. by destruct m.
Qed.

Lemma fine_announced f : fine_file f = true -> announced_file f && accepts f = announced_file f.
Proof.
  unfold fine_file, announced_file. destruct (contents f) as [text |]; [| done].
  destruct (qualifies text); cbn [negb orb andb]; [by intros -> | done].
Qed.

Lemma unfine_announced f : fine_file f = false -> announced_file f && accepts f = false.
Proof.
  unfold fine_file, announced_file. destruct (contents f) as [text |]; [| done].
  destruct (qualifies text); cbn [negb orb andb]; [by intros -> | done].
Qed.

Lemma paired_events_of_file p f evs :
  fine_file f = true -> paired evs = true -> paired (events_of_file p f ++ evs) = true.
Proof.
  unfold fine_file, events_of_file, accepts. destruct f as [[text |] m]; cbn [contents on_write]; [| done].
  destruct (qualifies text); cbn [negb orb].
  - destruct m; [| done..]. intros _ H. cbn [app paired]. by rewrite bool_decide_eq_true_2.
  - intros _ H. by destruct evs as [|[| |] evs].
Qed.

Lemma event_path_events_of_file p f e : e ∈ events_of_file p f -> event_path e = p.
Proof.
  unfold events_of_file. destruct f as [[text |] m]; cbn [contents on_write].
  - destruct (qualifies text); [destruct m |];
      intros H; repeat (apply elem_of_cons in H as [-> | H]; [done |]); by apply elem_of_nil in H.
  - intros H. apply elem_of_cons in H as [-> | H]; [done |]. by apply elem_of_nil in H.
Qed.

(** What the loops do, whatever files they meet and however they end. *)
Lemma loops_invariant entries : forall w count,
  exists w' count' evs,
    for_each (fun '(root, file) => visit root file) entries (w, count) =
      (ending w (paths_of entries), (w', count'))
    /\ names w' = names w
    /\ (forall i, is_Some (disk w' !! i) <-> is_Some (disk w !! i))
    /\ trace w' = trace w ++ evs
    /\ (forall e, e ∈ evs -> event_path e ∈ reached w (paths_of entries))
    /\ stdout w' =
       stdout w ++ map (fun e => console_line (event_path e)) (writes evs)
                ++ pending w (paths_of entries)
    /\ count' = count + length (writes evs)
    /\ (ending w (paths_of entries) = Ok tt -> paired evs = true)
    /\ (forall i, (forall p, p ∈ reached w (paths_of entries) -> names w !! p <> Some i) ->
          disk w' !! i = disk w !! i).
Proof.
  induction entries as [|[root file] entries IH]; intros w count.
  - exists w, count, []. cbn. rewrite !app_nil_r, Nat.add_0_r.
    repeat split; try done. intros e He. by apply elem_of_nil in He.
  - rewrite paths_of_cons. cbn [for_each].
    destruct (is_target file) eqn:Ht.
    2: { rewrite visit_skip by done. apply IH. }
    set (p := os_path_join root file) in *. cbn [ending reached pending].
    destruct (file_at w p) as [f |] eqn:Hfa.
    2: { rewrite visit_unopenable by done. unfold fine, announced, failure. rewrite Hfa.
         exists w, count, []. cbn. rewrite !app_nil_r, Nat.add_0_r.
         repeat split; try done. intros e He. by apply elem_of_nil in He. }
    apply file_at_Some in Hfa as Hnd. destruct Hnd as (i & Hn & Hd).
    rewrite (visit_file _ _ _ _ i f) by done. fold p.
    assert (Hfine : fine w p = fine_file f) by (unfold fine; by rewrite Hfa).
    assert (Hann : announced w p = announced_file f) by (unfold announced; by rewrite Hfa).
    rewrite Hfine, Hann.
    assert (Hdom : forall j, is_Some (<[i := left_by f]> (disk w) !! j) <-> is_Some (disk w !! j)).
    { intros j. destruct (decide (j = i)) as [-> |].
      - rewrite lookup_insert_eq, Hd. by split.
      - by rewrite lookup_insert_ne. }
    destruct (fine_file f) eqn:Hf.
    + set (w1 := World _ _ _ _). set (count1 := count + _).
      destruct (IH w1 count1) as (w' & count' & evs & Hrun & Hnames & Hdisk & Htr & Hev & Hout & Hc & Hp & Hfr).
      assert (Hext : forall q, file_at w1 q = file_at w q \/ (fine w1 q = true /\ fine w q = true)).
      { intros q. by apply visited_fine. }
      destruct (ending_ext w1 w (paths_of entries)) as [He Hr]; [auto |].
      rewrite (pending_ext w1 w) in Hout by auto.
      rewrite He, Hr in *.
      exists w', count', (events_of_file p f ++ evs).
      unfold w1, count1 in *. cbn [names disk stdout trace] in *.
      assert (Hw : map (fun e => console_line (event_path e)) (writes (events_of_file p f)) =
                   if announced_file f then [console_line p] else []).
      { by rewrite writes_events_of_file, fine_announced. }
      assert (Hl : length (writes (events_of_file p f)) = if announced_file f then 1 else 0).
      { rewrite <- (length_map (fun e => console_line (event_path e))), Hw.
        by destruct (announced_file f). }
      rewrite fine_announced in * by done.
      split; [done |]. split; [done |]. split; [intros j; by rewrite Hdisk |].
      split; [by rewrite Htr, <- app_assoc |].
      split; [| split; [| split; [| split]]].
      * intros e [He' | He']%elem_of_app.
        -- rewrite (event_path_events_of_file _ _ _ He'). apply list_elem_of_here.
        -- by apply list_elem_of_further, Hev.
      * rewrite Hout, writes_app, map_app, Hw, <- !app_assoc. done.
      * rewrite Hc, writes_app, length_app, Hl. lia.
      * intros Hok. by apply paired_events_of_file, Hp.
      * intros j Hj. rewrite Hfr.
        -- apply lookup_insert_ne. intros ->. by apply (Hj p), Hn; apply list_elem_of_here.
        -- intros q Hq. apply Hj. by apply list_elem_of_further.
    + eexists _, _, (events_of_file p f). split; [reflexivity |].
      cbn [names disk stdout trace].
      assert (Hw : map (fun e => console_line (event_path e)) (writes (events_of_file p f)) = []).
      { by rewrite writes_events_of_file, unfine_announced. }
      assert (Hl : length (writes (events_of_file p f)) = 0).
      { by rewrite <- (length_map (fun e => console_line (event_path e))), Hw. }
      rewrite Hw, Hl, unfine_announced by done.
      split; [done |]. split; [done |]. split; [done |].
      split; [| split; [| split; [| split]]]; try done.
      * intros e He'. rewrite (event_path_events_of_file _ _ _ He'). apply list_elem_of_here.
      * intros j Hj. apply lookup_insert_ne. intros ->.
        by apply (Hj p), Hn; apply list_elem_of_here.
Qed.


Lemma reached_subset w ps q : q ∈ reached w ps -> q ∈ ps.
Proof.
  induction ps as [|p ps IH]; [done |]. cbn [reached].
  destruct (fine w p).
  - intros [-> | H]%elem_of_cons; [apply list_elem_of_here | by apply list_elem_of_further, IH].
  - intros ->%list_elem_of_singleton. apply list_elem_of_here.
Qed.

Lemma files_of_cons w p ps :
  files_of w (p :: ps) =
  match names w !! p with
  | Some i => i :: files_of w ps
  | None => files_of w ps
  end.
Proof. done. Qed.

Lemma elem_of_files_of w ps q i : q ∈ ps -> names w !! q = Some i -> i ∈ files_of w ps.
Proof. intros Hq Hi. apply list_elem_of_omap. by exists q. Qed.

Lemma events_of_ext w1 w ps :
  (forall q, q ∈ ps -> file_at w1 q = file_at w q) ->
  flat_map (events_of w1) ps = flat_map (events_of w) ps.
Proof.
  induction ps as [|q ps IH]; intros H; [done |]. cbn [flat_map].
  rewrite IH by (intros; apply H; by apply list_elem_of_further).
  unfold events_of. by rewrite H by apply list_elem_of_here.
Qed.

(** The loops over paths that lead to distinct files: each path reached
    is visited as the world at the start has it. *)
Lemma run_spec entries : forall w count r w' count',
  NoDup (files_of w (paths_of entries)) ->
  for_each (fun '(root, file) => visit root file) entries (w, count) = (r, (w', count')) ->
  trace w' = trace w ++ flat_map (events_of w) (reached w (paths_of entries))
  /\ (forall p, p ∈ reached w (paths_of entries) -> file_at w' p = left_by <$> file_at w p).
Proof.
  induction entries as [|[root file] entries IH]; intros w count r w' count' Hnd Hrun.
  - injection Hrun as <- <- <-. cbn. rewrite app_nil_r. split; [done |].
    intros p Hp. by apply elem_of_nil in Hp.
  - rewrite paths_of_cons in *. cbn [for_each] in Hrun.
    destruct (is_target file) eqn:Ht.
    2: { rewrite visit_skip in Hrun by done. by eapply IH. }
    set (p := os_path_join root file) in *. cbn [reached].
    destruct (file_at w p) as [f |] eqn:Hfa.
    2: { rewrite visit_unopenable in Hrun by done. injection Hrun as <- <- <-.
         unfold fine. rewrite Hfa. cbn [flat_map]. unfold events_of. rewrite Hfa.
         cbn [app]. rewrite app_nil_r. split; [done |].
         intros q ->%list_elem_of_singleton. by rewrite Hfa. }
    apply file_at_Some in Hfa as Hnd'. destruct Hnd' as (i & Hn & Hd).
    rewrite (visit_file _ _ _ _ i f) in Hrun by done. fold p in Hrun.
    assert (Hfine : fine w p = fine_file f) by (unfold fine; by rewrite Hfa).
    assert (Hev : events_of w p = events_of_file p f) by (unfold events_of; by rewrite Hfa).
    rewrite Hfine. rewrite files_of_cons, Hn in Hnd. apply NoDup_cons in Hnd as [Hi Hnd].
    destruct (fine_file f) eqn:Hf.
    + set (w1 := World _ _ _ _) in Hrun.
      assert (Hrest : forall q, q ∈ paths_of entries -> file_at w1 q = file_at w q).
      { intros q Hq. unfold w1. rewrite file_at_insert.
        destruct (decide (names w !! q = Some i)) as [Hqi |]; [| done].
        exfalso. apply Hi. by eapply elem_of_files_of. }
      destruct (ending_ext w1 w (paths_of entries)) as [_ Hr]; [auto |].
      destruct (loops_invariant entries w1 (count + (if announced_file f && accepts f then 1 else 0)))
        as (w2 & count2 & evs & Hrun2 & Hnames & _ & _ & _ & _ & _ & _ & Hfr).
      rewrite Hrun in Hrun2. injection Hrun2 as _ <- _.
      apply IH in Hrun as [Htr Hfiles]; [| done].
      rewrite Hr in Htr, Hfiles, Hfr.
      rewrite (events_of_ext w1 w) in Htr
        by (intros q Hq; apply Hrest; by eapply reached_subset).
      unfold w1 in Htr at 1. cbn [trace flat_map] in *. rewrite Hev.
      split; [by rewrite Htr, <- !app_assoc |].
      intros q [-> | Hq]%elem_of_cons.
      * rewrite Hfa. cbn [fmap option_fmap option_map]. unfold file_at. rewrite Hnames.
        unfold w1 at 1. cbn [names]. rewrite Hn. rewrite Hfr.
        -- unfold w1. apply lookup_insert_eq.
        -- intros q Hq Hqi. apply Hi. apply reached_subset in Hq. by eapply elem_of_files_of.
      * rewrite Hfiles by done. rewrite Hrest by (by eapply reached_subset). done.
    + injection Hrun as <- <- <-. cbn [trace flat_map]. rewrite Hev, app_nil_r.
      split; [done |]. intros q ->%list_elem_of_singleton.
      rewrite file_at_insert, decide_True by done. by rewrite Hfa.
Qed.


(** *** One visit, case by case *)

Lemma text_at_Some w p text :
  text_at w p = Some text <->
  exists i m, names w !! p = Some i /\ disk w !! i = Some (File (Text text) m).
Proof.
  unfold text_at, text_of. split.
  - destruct (file_at w p) as [[[t |] m] |] eqn:Hf; cbn [contents]; try done.
    intros [= ->]. apply file_at_Some in Hf as (i & ? & ?). by exists i, m.
  - intros (i & m & Hn & Hd). by rewrite (file_at_names _ _ _ Hn), Hd.
Qed.

Lemma visit_text root file w count i text m :
  is_target file = true ->
  names w !! os_path_join root file = Some i ->
  disk w !! i = Some (File (Text text) m) ->
  visit root file (w, count) =
  if qualifies text then
    match m with
    | Accepts =>
        (Ok tt,
         (World (names w) (<[i := File (Text (rewritten text)) Accepts]> (disk w))
                (stdout w ++ [console_line (os_path_join root file)])
                (trace w ++ [Opened_r (os_path_join root file);
                             Written (os_path_join root file) (rewritten text)]),
          count + 1))
    | Refuses =>
        (Raise (OSError (os_path_join root file)),
         (World (names w) (disk w)
                (stdout w ++ [console_line (os_path_join root file)])
                (trace w ++ [Opened_r (os_path_join root file)]),
          count))
    | Breaks rest =>
        (Raise (OSError (os_path_join root file)),
         (World (names w) (<[i := File rest (Breaks rest)]> (disk w))
                (stdout w ++ [console_line (os_path_join root file)])
                (trace w ++ [Opened_r (os_path_join root file);
                             Damaged (os_path_join root file)]),
          count))
    end
  else (Ok tt, (log (Opened_r (os_path_join root file)) w, count)).
Proof.
  intros Ht Hn Hd. rewrite (visit_file _ _ _ _ i (File (Text text) m)) by done.
  unfold failure. rewrite (file_at_names _ _ _ Hn), Hd.
  unfold fine_file, announced_file, left_by, events_of_file, accepts, log.
  cbn [contents on_write].
  destruct (qualifies text); cbn [negb orb andb].
  - destruct m; [done | |].
    + by rewrite insert_id, Nat.add_0_r by done.
    + by rewrite Nat.add_0_r.
  - by rewrite insert_id, app_nil_r, Nat.add_0_r by done.
Qed.

Lemma visit_unqualified root file w count text :
  is_target file = true ->
  text_at w (os_path_join root file) = Some text ->
  qualifies text = false ->
  visit root file (w, count) = (Ok tt, (log (Opened_r (os_path_join root file)) w, count)).
Proof.
  intros Ht (i & m & Hn & Hd)%text_at_Some Hq.
  by rewrite (visit_text _ _ _ _ i text m), Hq.
Qed.

Lemma accepts_write_Accepts w p i text m :
  names w !! p = Some i -> disk w !! i = Some (File (Text text) m) ->
  accepts_write w p = true -> m = Accepts.
Proof.
  intros Hn Hd. unfold accepts_write, accepts. rewrite (file_at_names _ _ _ Hn), Hd.
  cbn [on_write]. by destruct m.
Qed.

Lemma text_at_insert w i text m out tr p :
  names w !! p = Some i ->
  text_at (World (names w) (<[i := File (Text text) m]> (disk w)) out tr) p = Some text.
Proof. intros Hn. unfold text_at. by rewrite file_at_insert, decide_True. Qed.

(** A target file that accepts the write holds [run_once text] after it is
    visited. *)
Lemma visit_run_once root file w count text :
  is_target file = true ->
  text_at w (os_path_join root file) = Some text ->
  accepts_write w (os_path_join root file) = true ->
  exists w' count',
    visit root file (w, count) = (Ok tt, (w', count'))
    /\ text_at w' (os_path_join root file) = Some (run_once text).
Proof.
  intros Ht Htext Hacc. pose proof Htext as (i & m & Hn & Hd)%text_at_Some.
  rewrite (accepts_write_Accepts _ _ _ _ _ Hn Hd Hacc) in Hd.
  rewrite (visit_text _ _ _ _ i text Accepts) by done. unfold run_once.
  destruct (qualifies text); do 2 eexists; (split; [reflexivity |]).
  - by apply text_at_insert.
  - done.
Qed.

(** A visit that returns leaves [run_once text] in the file, whether or
    not it accepts a write. *)
Lemma visit_completed root file w count w' count' text :
  is_target file = true ->
  text_at w (os_path_join root file) = Some text ->
  visit root file (w, count) = (Ok tt, (w', count')) ->
  text_at w' (os_path_join root file) = Some (run_once text).
Proof.
  intros Ht Htext. pose proof Htext as (i & m & Hn & Hd)%text_at_Some.
  rewrite (visit_text _ _ _ _ i text m) by done. unfold run_once.
  destruct (qualifies text).
  - destruct m; intros [= <- <-]. by apply text_at_insert.
  - by intros [= <- <-].
Qed.

Lemma app_cons_ne {A} (l : list A) x : l ++ [x] <> l.
Proof. intros H. apply (f_equal length) in H. rewrite length_app in H. simpl in H. lia. Qed.


(** C4. A file whose lines are all blank is not qualified: the classifier
    returns before the division, which therefore never sees a zero
    divisor; the file is opened and left as it is, and the counter keeps
    its value. *)
Theorem blank_file_not_qualified :
  (forall c, truediv c 0 = Raise ZeroDivisionError)
  /\ (forall lines, exists b, is_fully_commented lines = Ok b)
  /\ (forall lines,
        Forall (fun l => strip l = []) lines ->
        non_empty lines = [] /\ is_fully_commented lines = Ok false)
  /\ (forall root file w count text,
        is_target file = true ->
        text_at w (os_path_join root file) = Some text ->
        Forall (fun l => strip l = []) (lines_of text) ->
        visit root file (w, count) =
        (Ok tt,
         (World (names w) (disk w) (stdout w) (trace w ++ [Opened_r (os_path_join root file)]),
          count))).
Proof.
  split; [done |]. split; [| split].
  - intros lines. rewrite is_fully_commented_eq. eauto.
  - intros lines H. pose proof (non_empty_blank lines H) as Hn.
    split; [done |]. unfold is_fully_commented. by rewrite Hn.
  - intros root file w count text Ht Hf Hblank.
    apply (visit_unqualified _ _ _ _ text); [done | done |].
    unfold qualifies, is_fully_commented. by rewrite non_empty_blank.
Qed.

Lemma blank_file_not_qualified_witness :
  visit (TARGET_DIR ++ lit "/lib") (lit "c.ts") (sample_world, 0) =
  (Ok tt, (World sample_names sample_disk [] [Opened_r (TARGET_DIR ++ lit "/lib/c.ts")], 0)).
Proof.
  apply (proj2 (proj2 (proj2 blank_file_not_qualified))
           (TARGET_DIR ++ lit "/lib") (lit "c.ts") sample_world 0 (lit "   " ++ [10%N])).
  - reflexivity.
  - vm_compute. reflexivity.
  - repeat constructor.
Defined.

(** C1, as the code has it. The script sets about rewriting a target file
    that opens and decodes (it prints the file's console line and opens it
    for writing) if and only if the file has a line that is not blank and
    the ratio of the lines whose stripped form starts with the marker to
    the lines that are not blank is strictly greater than 0.95: as the
    script computes the ratio, in binary64, and for fewer than 2^52 lines
    equally as an exact quotient.  The file is rewritten if and only if,
    moreover, it accepts the write; when it does not, the visit ends in
    [OSError] and the file is not counted.  With 19 marked lines out of 20
    that are not blank the ratio is not above 0.95 and the file is left as
    it is, with 20 out of 21 it is above. *)
Theorem rewritten_iff_ratio_above_095 root file w count text :
  is_target file = true ->
  text_at w (os_path_join root file) = Some text ->
  let path := os_path_join root file in
  let n := nonblank_count (lines_of text) in
  let c := marked_count (lines_of text) in
  let above := n <> 0 /\ float_gt_095 c n = true in
  exists r w' count' evs,
    visit root file (w, count) = (r, (w', count'))
    /\ trace w' = trace w ++ evs
    /\ (stdout w' = stdout w ++ [console_line path] <-> above)
    /\ ((exists data, Written path data ∈ evs) <-> above /\ accepts_write w path = true)
    /\ (above -> accepts_write w path = true ->
        r = Ok tt /\ evs = [Opened_r path; Written path (rewritten text)]
        /\ text_at w' path = Some (rewritten text) /\ count' = count + 1)
    /\ (above -> accepts_write w path = false ->
        r = Raise (OSError path) /\ count' = count)
    /\ (~ above ->
        r = Ok tt /\ evs = [Opened_r path] /\ disk w' = disk w
        /\ stdout w' = stdout w /\ count' = count)
    /\ ((Z.of_nat n < 2 ^ 52)%Z -> above <-> n <> 0 /\ (0.95 < exact_ratio c n)%Q)
    /\ (n = 20 -> c = 19 -> ~ above)
    /\ (n = 21 -> c = 20 -> above).
Proof.
  intros Ht Htext path n c above.
  pose proof Htext as (i & m & Hn & Hd)%text_at_Some.
  rewrite (visit_text _ _ _ _ i text m) by done. fold path in Hn |- *.
  assert (Habove : qualifies text = true <-> above) by apply qualifies_counts.
  assert (Hacc : accepts_write w path = match m with Accepts => true | _ => false end).
  { unfold accepts_write, accepts. by rewrite (file_at_names _ _ _ Hn), Hd. }
  assert (Hexact : (Z.of_nat n < 2 ^ 52)%Z -> above <-> n <> 0 /\ (0.95 < exact_ratio c n)%Q).
  { intros Hlt. unfold above. split; intros [H0 H1]; (split; [done |]); by apply counts_exact. }
  assert (H19 : n = 20 -> c = 19 -> ~ above).
  { intros -> -> [_ H]. vm_compute in H. discriminate. }
  assert (H20 : n = 21 -> c = 20 -> above).
  { intros Hn' Hc'. unfold above. rewrite Hn', Hc'. split; [done | by vm_compute]. }
  rewrite Hacc.
  assert (Hin : forall evs, (exists data, Written path data ∈ Opened_r path :: evs) <->
                            (exists data, Written path data ∈ evs)).
  { intros evs. split; intros [data H]; exists data.
    - by apply elem_of_cons in H as [? | ?].
    - by apply list_elem_of_further. }
  assert (Hnil : ~ exists data, Written path data ∈ ([] : list event)).
  { intros [data H]. by apply elem_of_nil in H. }
  destruct (qualifies text) eqn:Hq.
  - assert (Ha : above) by (by apply Habove).
    destruct m as [| |rest]; do 4 eexists; (split; [reflexivity |]);
      cbn [trace stdout disk names log];
      (split; [reflexivity |]); (split; [by split |]);
      (split; [| split; [| split; [| split; [| split; [| split]]]]]);
      try done; try tauto.
    + split; [intros _; by split |]. intros _. exists (rewritten text).
      apply list_elem_of_further, list_elem_of_here.
    + intros _ _. split; [done |]. split; [done |]. split; [| done].
      by apply text_at_insert.
    + rewrite Hin. split; [done | by intros [_ ?]].
    + rewrite Hin. split; [| by intros [_ ?]].
      intros [data H]. apply elem_of_cons in H as [? | H]; [done |]. by apply elem_of_nil in H.
  - assert (Ha : ~ above) by (rewrite <- Habove; congruence).
    do 4 eexists. split; [reflexivity |]. cbn [trace stdout disk names log].
    split; [reflexivity |].
    split; [split; [intros H; symmetry in H; by apply app_cons_ne in H | done] |].
    split; [rewrite Hin; split; [done | tauto] |].
    repeat (split; [done |]). done.
Qed.

Lemma rewritten_iff_ratio_above_095_witness :
  (exists w',
     visit TARGET_DIR (lit "a.ts") (boundary_world, 0) = (Ok tt, (w', 0))
     /\ trace w' = [Opened_r (os_path_join TARGET_DIR (lit "a.ts"))]
     /\ disk w' = disk boundary_world)
  /\ (exists w',
        visit TARGET_DIR (lit "a.ts") (above_boundary_world, 0) = (Ok tt, (w', 1))
        /\ trace w' = [Opened_r (os_path_join TARGET_DIR (lit "a.ts"));
                       Written (os_path_join TARGET_DIR (lit "a.ts"))
                               (rewritten above_boundary_text)]
        /\ text_at w' (os_path_join TARGET_DIR (lit "a.ts")) =
           Some (rewritten above_boundary_text)).
Proof.
  split.
  - destruct (rewritten_iff_ratio_above_095 TARGET_DIR (lit "a.ts") boundary_world 0
                boundary_text)
      as (r & w' & count' & evs & Hv & Htr & _ & _ & _ & _ & Hnot & _ & H19 & _).
    + reflexivity.
    + vm_compute. reflexivity.
    + destruct Hnot as (-> & -> & Hd & _ & ->).
      { apply H19; vm_compute; reflexivity. }
      exists w'. split; [exact Hv |]. split; [exact Htr | exact Hd].
  - destruct (rewritten_iff_ratio_above_095 TARGET_DIR (lit "a.ts") above_boundary_world 0
                above_boundary_text)
      as (r & w' & count' & evs & Hv & Htr & _ & _ & Hyes & _ & _ & _ & _ & H20).
    + reflexivity.
    + vm_compute. reflexivity.
    + destruct Hyes as (-> & -> & Ht & ->).
      { apply H20; vm_compute; reflexivity. }
      { vm_compute. reflexivity. }
      exists w'. split; [exact Hv |]. split; [exact Htr | exact Ht].
Defined.

(** C1 as stated fails: a read-only file with a target extension, both of
    whose lines start with the marker, is not rewritten; the visit ends in
    [OSError] once the console line is printed. *)
Lemma read_only_file_not_rewritten :
  is_target (lit "a.ts") = true
  /\ text_at sample_world_read_only (os_path_join TARGET_DIR (lit "a.ts")) = Some sample_text
  /\ nonblank_count (lines_of sample_text) = 2
  /\ marked_count (lines_of sample_text) = 2
  /\ float_gt_095 2 2 = true
  /\ rewritten sample_text <> sample_text
  /\ exists w',
       visit TARGET_DIR (lit "a.ts") (sample_world_read_only, 0) =
         (Raise (OSError (os_path_join TARGET_DIR (lit "a.ts"))), (w', 0))
       /\ stdout w' = [console_line (os_path_join TARGET_DIR (lit "a.ts"))]
       /\ trace w' = [Opened_r (os_path_join TARGET_DIR (lit "a.ts"))]
       /\ text_at w' (os_path_join TARGET_DIR (lit "a.ts")) = Some sample_text.
Proof.
  split; [reflexivity |]. split; [by vm_compute |]. split; [by vm_compute |].
  split; [by vm_compute |]. split; [by vm_compute |]. split; [by vm_compute |].
  exists (fst (snd (visit TARGET_DIR (lit "a.ts") (sample_world_read_only, 0)))).
  split; [apply triple_fst; vm_compute; reflexivity |]. by vm_compute.
Qed.


(** *** The whole walk *)

Lemma reached_fine w ps :
  Forall (fun p => fine w p = true) ps ->
  ending w ps = Ok tt /\ reached w ps = ps /\ pending w ps = [].
Proof.
  induction 1 as [|p ps Hp _ (IH1 & IH2 & IH3)]; [done |].
  cbn [ending reached pending]. by rewrite Hp, IH1, IH2, IH3.
Qed.

Lemma reached_fail w pre p post :
  Forall (fun q => fine w q = true) pre ->
  fine w p = false ->
  ending w (pre ++ p :: post) = Raise (failure w p)
  /\ reached w (pre ++ p :: post) = pre ++ [p]
  /\ pending w (pre ++ p :: post) = (if announced w p then [console_line p] else []).
Proof.
  intros Hpre Hp. induction Hpre as [|q pre Hq _ (IH1 & IH2 & IH3)];
    cbn [app ending reached pending].
  - by rewrite Hp.
  - by rewrite Hq, IH1, IH2, IH3.
Qed.

Lemma writes_unfine w p : fine w p = false -> writes (events_of w p) = [].
Proof.
  unfold fine, events_of. destruct (file_at w p) as [f |]; [| done].
  intros Hf. pose proof (writes_events_of_file p f) as H.
  rewrite unfine_announced in H by done. by destruct (writes _).
Qed.

Lemma console_writes_fine w ps :
  Forall (fun p => fine w p = true) ps ->
  map (fun e => console_line (event_path e)) (writes (flat_map (events_of w) ps)) =
  map console_line (qualifying_paths w ps).
Proof.
  unfold qualifying_paths. induction 1 as [|p ps Hp _ IH]; [done |].
  cbn [flat_map]. rewrite writes_app, map_app, IH, filter_cons.
  unfold fine, events_of, announced in *.
  destruct (file_at w p) as [f |]; [| done].
  rewrite writes_events_of_file, fine_announced by done.
  by destruct (announced_file f).
Qed.

Lemma written_count_app p evs evs' :
  written_count p (evs ++ evs') = written_count p evs + written_count p evs'.
Proof. unfold written_count. by rewrite filter_app, length_app. Qed.

Lemma written_count_events_of w p q :
  written_count p (events_of w q) =
  if decide (p = q) then (if announced w q && accepts_write w q then 1 else 0) else 0.
Proof.
  unfold written_count, events_of, announced, accepts_write.
  destruct (file_at w q) as [f |]; [| by destruct (decide (p = q))].
  unfold events_of_file, announced_file, accepts.
  destruct f as [[text |] m]; cbn [contents on_write].
  2: { rewrite filter_cons, decide_False by done. by destruct (decide (p = q)). }
  rewrite filter_cons, decide_False by done.
  destruct (qualifies text); cbn [andb]; [| by destruct (decide (p = q))].
  destruct m; cbn [andb]; try (by destruct (decide (p = q))).
  rewrite filter_cons. cbn [is_write_to].
  destruct (decide (p = q)) as [-> | Hne].
  - by rewrite bool_decide_eq_true_2, decide_True.
  - rewrite bool_decide_eq_false_2 by congruence. by rewrite decide_False.
Qed.

Lemma written_count_events w ps p :
  NoDup ps -> p ∈ ps ->
  written_count p (flat_map (events_of w) ps) =
  if announced w p && accepts_write w p then 1 else 0.
Proof.
  assert (Hother : forall qs, p ∉ qs -> written_count p (flat_map (events_of w) qs) = 0).
  { induction qs as [|q qs IH]; intros Hp; [done |].
    apply not_elem_of_cons in Hp as [Hpq Hp]. cbn [flat_map].
    rewrite written_count_app, IH, written_count_events_of by done.
    by rewrite decide_False. }
  induction ps as [|q ps IH]; intros Hnd Hin; [by apply elem_of_nil in Hin |].
  apply NoDup_cons in Hnd as [Hq Hnd]. cbn [flat_map].
  rewrite written_count_app, written_count_events_of.
  destruct (decide (p = q)) as [-> | Hpq].
  - rewrite Hother by done. lia.
  - apply elem_of_cons in Hin as [-> | Hin]; [done |]. by rewrite IH.
Qed.

Lemma NoDup_files_of w ps :
  NoDup (files_of w ps) -> Forall (fun p => is_Some (names w !! p)) ps -> NoDup ps.
Proof.
  induction ps as [|p ps IH]; intros Hnd Hall; [constructor |].
  apply Forall_cons in Hall as [[i Hi] Hall].
  rewrite files_of_cons, Hi in Hnd. apply NoDup_cons in Hnd as [Hin Hnd].
  apply NoDup_cons. split; [| by apply IH].
  intros Hp. apply Hin. by eapply elem_of_files_of.
Qed.

Lemma fine_names w p : fine w p = true -> is_Some (names w !! p).
Proof.
  unfold fine, file_at. by destruct (names w !! p).
Qed.

Lemma text_of_left_by f text :
  fine_file f = true -> text_of f = Some text -> text_of (left_by f) = Some (run_once text).
Proof.
  unfold fine_file, text_of, left_by, run_once, accepts.
  destruct f as [[t |] m]; cbn [contents on_write]; [| done].
  intros Hf [= ->]. destruct (qualifies text); cbn [negb orb] in *; [| done].
  by destruct m.
Qed.

Lemma text_at_left_by w w' p text :
  file_at w' p = left_by <$> file_at w p ->
  fine w p = true -> text_at w p = Some text -> text_at w' p = Some (run_once text).
Proof.
  unfold text_at, fine. intros ->. destruct (file_at w p) as [f |]; [| done].
  cbn [fmap option_fmap option_map]. apply text_of_left_by.
Qed.

Lemma loops_main os_walk w r w1 count :
  for_each (fun '(root, file) => visit root file)
           (walk_files (os_walk TARGET_DIR)) (w, 0) = (r, (w1, count)) ->
  main os_walk w =
  match r with
  | Ok _ => (Ok tt, print (summary_line count) w1)
  | Raise e => (Raise e, w1)
  end.
Proof. intros H. by rewrite main_eq, H. Qed.


(** C5, as the code has it. When no two target paths of the walk lead to
    the same file: if every target file opens and decodes and every
    qualifying one accepts the write, every qualifying file is rewritten
    exactly once and counted once, a line "Uncommenting: <path>" is printed
    for it, and after the walk one line "Total files uncommented: <count>"
    reports the counter, which is the number of files rewritten.  If a
    target file does not open, does not decode, or qualifies and does not
    accept the write, the run ends there in an exception: the files before
    it are rewritten and reported as in a complete run, a file that fails
    at the write has its console line but is not counted, and no summary
    line is printed. *)
Theorem main_rewrites_each_qualifying_file_once os_walk w :
  let ps := target_paths (os_walk TARGET_DIR) in
  NoDup (files_of w ps) ->
  (Forall (fun p => fine w p = true) ps ->
   let Q := qualifying_paths w ps in
   let evs := flat_map (events_of w) ps in
   exists w',
     main os_walk w = (Ok tt, w')
     /\ trace w' = trace w ++ evs
     /\ stdout w' = stdout w ++ map console_line Q ++ [summary_line (length Q)]
     /\ length (writes evs) = length Q
     /\ NoDup Q
     /\ (forall p text,
           p ∈ ps -> text_at w p = Some text -> qualifies text = true ->
           p ∈ Q /\ written_count p evs = 1 /\ text_at w' p = Some (rewritten text)))
  /\ (forall pre p post,
        ps = pre ++ p :: post ->
        Forall (fun q => fine w q = true) pre ->
        fine w p = false ->
        let Q := qualifying_paths w pre in
        let evs := flat_map (events_of w) pre ++ events_of w p in
        exists w',
          main os_walk w = (Raise (failure w p), w')
          /\ trace w' = trace w ++ evs
          /\ stdout w' = stdout w ++ map console_line Q
                         ++ (if announced w p then [console_line p] else [])
          /\ length (writes evs) = length Q
          /\ (forall q text,
                q ∈ pre -> text_at w q = Some text ->
                text_at w' q = Some (run_once text))
          /\ file_at w' p = left_by <$> file_at w p)
  /\ (forall root file w0 count text,
        is_target file = true ->
        text_at w0 (os_path_join root file) = Some text ->
        qualifies text = true ->
        (accepts_write w0 (os_path_join root file) = true ->
         exists w1, visit root file (w0, count) = (Ok tt, (w1, count + 1)))
        /\ (accepts_write w0 (os_path_join root file) = false ->
            exists w1,
              visit root file (w0, count) =
                (Raise (OSError (os_path_join root file)), (w1, count))
              /\ stdout w1 = stdout w0 ++ [console_line (os_path_join root file)])).
Proof.
  intros ps Hnd.
  destruct (loops_invariant (walk_files (os_walk TARGET_DIR)) w 0)
    as (w1 & count & evs1 & Hrun & Hnames & _ & Htr & _ & Hout & Hc & _ & _).
  fold (target_paths (os_walk TARGET_DIR)) in Hrun, Hout. fold ps in Hrun, Hout.
  destruct (run_spec _ _ _ _ _ _ Hnd Hrun) as [Htr' Hfiles].
  fold (target_paths (os_walk TARGET_DIR)) in Htr', Hfiles. fold ps in Htr', Hfiles.
  rewrite Htr' in Htr. apply app_inv_head in Htr. subst evs1.
  pose proof (loops_main _ _ _ _ _ Hrun) as Hmain. clear Hrun.
  split; [| split].
  - intros Hall Q evs. destruct (reached_fine w ps Hall) as (He & Hr & Hp).
    rewrite He in Hmain. rewrite Hr in *. rewrite Hp, app_nil_r in Hout.
    rewrite console_writes_fine in Hout by done. fold Q in Hout. fold evs in Htr', Hc.
    assert (Hlen : length (writes evs) = length Q).
    { rewrite <- (length_map (fun e => console_line (event_path e))).
      unfold evs. rewrite console_writes_fine by done. apply length_map. }
    exists (print (summary_line count) w1). split; [done |].
    cbn [trace stdout print]. rewrite Hout, Hc, Hlen, <- app_assoc. cbn [Nat.add].
    split; [done |]. split; [done |]. split; [done |].
    assert (Hnd' : NoDup ps).
    { apply (NoDup_files_of w); [done |].
      eapply Forall_impl; [exact Hall |]. intros q. apply fine_names. }
    split; [by apply NoDup_filter |].
    intros p text Hin Htext Hq.
    rewrite Forall_forall in Hall. pose proof (Hall p Hin) as Hfine.
    assert (Hann : announced w p = true).
    { unfold announced, announced_file. unfold text_at, text_of in Htext.
      destruct (file_at w p) as [[[t |] m] |]; cbn [contents] in *; congruence. }
    assert (Hacc : accepts_write w p = true).
    { unfold fine, fine_file, accepts_write in *. unfold text_at, text_of in Htext.
      destruct (file_at w p) as [[[t |] m] |]; cbn [contents] in *; try congruence.
      injection Htext as ->. rewrite Hq in Hfine. done. }
    split; [by apply list_elem_of_filter |].
    split; [unfold evs; rewrite written_count_events by done; by rewrite Hann, Hacc |].
    assert (Hro : run_once text = rewritten text) by (unfold run_once; by rewrite Hq).
    rewrite <- Hro. apply (text_at_left_by w); [| done | done].
    unfold file_at. cbn [names disk print]. by apply Hfiles.
  - intros pre p post Hps Hpre Hp Q evs.
    destruct (reached_fail w pre p post Hpre Hp) as (He & Hr & Hpe).
    rewrite <- Hps in He, Hr, Hpe. rewrite He in Hmain. rewrite Hr in *. rewrite Hpe in Hout.
    rewrite flat_map_app in Htr', Hout, Hc. cbn [flat_map] in Htr', Hout, Hc.
    rewrite app_nil_r in Htr', Hout, Hc. fold evs in Htr', Hout, Hc.
    assert (Hw : map (fun e => console_line (event_path e)) (writes evs) = map console_line Q).
    { unfold evs. rewrite writes_app, writes_unfine, app_nil_r by done.
      by apply console_writes_fine. }
    exists w1. split; [done |]. split; [done |]. split; [by rewrite Hout, Hw |].
    split; [by rewrite <- (length_map (fun e => console_line (event_path e))), Hw, length_map |].
    split.
    + intros q text Hq Htext. apply (text_at_left_by w); [| | done].
      * apply Hfiles. apply elem_of_app. by left.
      * rewrite Forall_forall in Hpre. by apply Hpre.
    + apply Hfiles. apply elem_of_app. right. apply list_elem_of_here.
  - intros root file w0 count0 text Ht (i & m & Hn & Hd)%text_at_Some Hq.
    rewrite (visit_text _ _ _ _ i text m), Hq by done.
    unfold accepts_write, accepts. rewrite (file_at_names _ _ _ Hn), Hd. cbn [on_write].
    destruct m; (split; [intros Hacc | intros Hacc]); try discriminate; by eexists.
Qed.

Lemma main_rewrites_each_qualifying_file_once_witness :
  (exists w',
     main sample_os_walk sample_world = (Ok tt, w')
     /\ stdout w' = [console_line (TARGET_DIR ++ lit "/a.ts"); summary_line 1]
     /\ text_at w' (TARGET_DIR ++ lit "/a.ts") = Some (rewritten sample_text))
  /\ (exists w',
        main sample_os_walk sample_world_undecodable = (Raise UnicodeDecodeError, w')
        /\ stdout w' = [console_line (TARGET_DIR ++ lit "/a.ts")]
        /\ text_at w' (TARGET_DIR ++ lit "/a.ts") = Some (run_once sample_text)).
Proof.
  split.
  - destruct (main_rewrites_each_qualifying_file_once sample_os_walk sample_world)
      as [H _].
    + apply (bool_decide_unpack _). vm_compute. exact I.
    + destruct H as (w' & Hmain & _ & Hout & _ & _ & Hp).
      * apply (bool_decide_unpack _). vm_compute. exact I.
      * exists w'. split; [exact Hmain |]. split; [exact Hout |].
        apply (Hp (TARGET_DIR ++ lit "/a.ts") sample_text).
        -- apply (bool_decide_unpack _). vm_compute. exact I.
        -- vm_compute. reflexivity.
        -- vm_compute. reflexivity.
  - destruct (main_rewrites_each_qualifying_file_once sample_os_walk sample_world_undecodable)
      as (_ & H & _).
    + apply (bool_decide_unpack _). vm_compute. exact I.
    + destruct (H [TARGET_DIR ++ lit "/a.ts"] (TARGET_DIR ++ lit "/lib/b.tsx")
                  [TARGET_DIR ++ lit "/lib/c.ts"])
        as (w' & Hmain & _ & Hout & _ & Hp & _).
      * vm_compute. reflexivity.
      * apply (bool_decide_unpack _). vm_compute. exact I.
      * vm_compute. reflexivity.
      * exists w'. split; [exact Hmain |]. split; [exact Hout |].
        apply (Hp (TARGET_DIR ++ lit "/a.ts") sample_text).
        -- apply list_elem_of_here.
        -- vm_compute. reflexivity.
Defined.

(** C5 as stated fails.  A qualifying file that is read-only is not
    rewritten: its console line is printed, the run ends in [OSError] and
    there is no summary line.  A qualifying file that two target paths
    lead to is rewritten twice in one run, and counted twice. *)
Lemma read_only_or_linked_file_miscounted :
  (announced sample_world_read_only (TARGET_DIR ++ lit "/a.ts") = true
   /\ TARGET_DIR ++ lit "/a.ts" ∈ target_paths (sample_os_walk TARGET_DIR)
   /\ exists w',
        main sample_os_walk sample_world_read_only =
          (Raise (OSError (TARGET_DIR ++ lit "/a.ts")), w')
        /\ stdout w' = [console_line (TARGET_DIR ++ lit "/a.ts")]
        /\ writes (trace w') = []
        /\ disk w' = disk sample_world_read_only)
  /\ (names sample_world_twice !! (TARGET_DIR ++ lit "/a.ts") = Some 1%N
      /\ names sample_world_twice !! (TARGET_DIR ++ lit "/lib/c.ts") = Some 1%N
      /\ exists w',
           main sample_os_walk sample_world_twice = (Ok tt, w')
           /\ writes (trace w') =
              [Written (TARGET_DIR ++ lit "/a.ts") (lit "// x" ++ [10%N]);
               Written (TARGET_DIR ++ lit "/lib/c.ts") (lit "x" ++ [10%N])]
           /\ stdout w' = [console_line (TARGET_DIR ++ lit "/a.ts");
                           console_line (TARGET_DIR ++ lit "/lib/c.ts");
                           summary_line 2]
           /\ text_at w' (TARGET_DIR ++ lit "/a.ts") = Some (lit "x" ++ [10%N])
           /\ rewritten nested_text = lit "// x" ++ [10%N]).
Proof.
  split.
  - split; [by vm_compute |]. split; [apply (bool_decide_unpack _); by vm_compute |].
    exists (snd (main sample_os_walk sample_world_read_only)).
    split; [apply pair_fst; vm_compute; reflexivity |]. by vm_compute.
  - split; [by vm_compute |]. split; [by vm_compute |].
    exists (snd (main sample_os_walk sample_world_twice)).
    split; [apply pair_fst; vm_compute; reflexivity |]. by vm_compute.
Qed.


(** The sample run: one of three target files qualifies. *)
Example sample_run :
  exists w',
    main sample_os_walk sample_world = (Ok tt, w')
    /\ stdout w' = [lit "Uncommenting: " ++ TARGET_DIR ++ lit "/a.ts";
                    lit "Total files uncommented: 1"]
    /\ trace w' =
       [Opened_r (TARGET_DIR ++ lit "/a.ts");
        Written (TARGET_DIR ++ lit "/a.ts")
                (lit "const x = 1" ++ [10%N] ++ lit "  const z = 3" ++ [10%N]);
        Opened_r (TARGET_DIR ++ lit "/lib/b.tsx");
        Opened_r (TARGET_DIR ++ lit "/lib/c.ts")]
    /\ text_at w' (TARGET_DIR ++ lit "/notes.md") = Some (lit "// not a target" ++ [10%N]).
Proof.
  exists (snd (main sample_os_walk sample_world)).
  split; [apply pair_fst; vm_compute; reflexivity |]. by vm_compute.
Qed.

(** Whatever the loops do, and however they end, they do it through target
    paths: a file that none of them leads to stays as it is. *)
Lemma run_frame entries w count r w' count' :
  for_each (fun '(root, file) => visit root file) entries (w, count) = (r, (w', count')) ->
  names w' = names w
  /\ exists evs,
       trace w' = trace w ++ evs
       /\ (forall e, e ∈ evs -> event_path e ∈ paths_of entries)
       /\ (forall i, (forall q, q ∈ paths_of entries -> names w !! q <> Some i) ->
             disk w' !! i = disk w !! i).
Proof.
  intros Hrun.
  destruct (loops_invariant entries w count)
    as (w2 & count2 & evs & Hrun2 & Hnames & _ & Htr & Hev & _ & _ & _ & Hfr).
  rewrite Hrun in Hrun2. injection Hrun2 as _ <- <-.
  split; [done |]. exists evs. split; [done |]. split.
  - intros e He. eapply reached_subset. by apply Hev.
  - intros i Hi. apply Hfr. intros q Hq. apply Hi. by eapply reached_subset.
Qed.

Lemma file_at_frame w w' p :
  names w' = names w ->
  (forall i, names w !! p = Some i -> disk w' !! i = disk w !! i) ->
  file_at w' p = file_at w p.
Proof.
  unfold file_at. intros -> H. destruct (names w !! p) as [i |]; [by apply H | done].
Qed.

(** C6, as the code has it. A file name without a target extension is
    never passed to [open]: visiting it changes nothing, and in any run of
    the loops and any whole run, completed or not, no file operation bears
    a path with such a name.  The file behind such a name keeps its content
    unless a target path of the walk leads to the same file. *)
Theorem non_target_files_untouched :
  (forall root file st, is_target file = false -> visit root file st = (Ok tt, st))
  /\ (forall entries w count r w' count',
        for_each (fun '(root, file) => visit root file) entries (w, count)
          = (r, (w', count')) ->
        exists evs,
          trace w' = trace w ++ evs
          /\ forall root file,
               is_target file = false ->
               (forall e, e ∈ evs -> event_path e <> os_path_join root file)
               /\ ((forall q, q ∈ paths_of entries -> ~ same_file w q (os_path_join root file)) ->
                   file_at w' (os_path_join root file) = file_at w (os_path_join root file)))
  /\ (forall os_walk w r w',
        main os_walk w = (r, w') ->
        exists evs,
          trace w' = trace w ++ evs
          /\ forall root file,
               is_target file = false ->
               (forall e, e ∈ evs -> event_path e <> os_path_join root file)
               /\ ((forall q, q ∈ target_paths (os_walk TARGET_DIR) ->
                      ~ same_file w q (os_path_join root file)) ->
                   file_at w' (os_path_join root file) = file_at w (os_path_join root file))).
Proof.
  assert (Hloops : forall entries w count r w' count',
    for_each (fun '(root, file) => visit root file) entries (w, count) = (r, (w', count')) ->
    exists evs,
      trace w' = trace w ++ evs
      /\ forall root file,
           is_target file = false ->
           (forall e, e ∈ evs -> event_path e <> os_path_join root file)
           /\ ((forall q, q ∈ paths_of entries -> ~ same_file w q (os_path_join root file)) ->
               file_at w' (os_path_join root file) = file_at w (os_path_join root file))).
  { intros entries w count r w' count' Hrun.
    apply run_frame in Hrun as (Hnames & evs & Htr & Hev & Hfr).
    exists evs. split; [done |]. intros root file Ht. split.
    - intros e He Heq.
      assert (Hin : os_path_join root file ∈ paths_of entries) by (rewrite <- Heq; by apply Hev).
      apply paths_of_target in Hin. rewrite is_target_join in Hin. congruence.
    - intros Hq. apply file_at_frame; [done |]. intros i Hi. apply Hfr.
      intros q Hin Hqi. apply (Hq q Hin). by exists i. }
  split; [apply visit_skip |]. split; [exact Hloops |].
  intros os_walk w r w' Hmain. rewrite main_eq in Hmain.
  destruct (for_each _ (walk_files (os_walk TARGET_DIR)) (w, 0))
    as [[[] | e] [w1 count]] eqn:Hrun; injection Hmain as <- <-;
    cbn [trace print]; apply Hloops in Hrun as (evs & Htr & H); by exists evs.
Qed.

Lemma non_target_files_untouched_witness :
  visit TARGET_DIR (lit "notes.md") (sample_world, 0) = (Ok tt, (sample_world, 0))
  /\ file_at sample_world_after (os_path_join TARGET_DIR (lit "notes.md"))
     = file_at sample_world (os_path_join TARGET_DIR (lit "notes.md")).
Proof.
  split.
  - apply (proj1 non_target_files_untouched TARGET_DIR (lit "notes.md") (sample_world, 0)).
    reflexivity.
  - destruct (proj2 (proj2 non_target_files_untouched)
                sample_os_walk sample_world (Ok tt) sample_world_after)
      as (evs & _ & H).
    + unfold sample_world_after. apply pair_fst. vm_compute. reflexivity.
    + apply (H TARGET_DIR (lit "notes.md")); [reflexivity |].
      intros q Hq (i & Hqi & Hi). vm_compute in Hi. injection Hi as <-.
      vm_compute in Hq.
      repeat (apply elem_of_cons in Hq as [-> | Hq]; [vm_compute in Hqi; discriminate |]).
      by apply elem_of_nil in Hq.
Defined.

(** C6 as stated fails: when a path with a target extension is a link to a
    file whose name has none, the file is opened, inspected and rewritten
    through the link. *)
Lemma linked_non_target_file_rewritten :
  is_target (lit "notes.md") = false
  /\ same_file sample_world_linked (TARGET_DIR ++ lit "/a.ts") (TARGET_DIR ++ lit "/notes.md")
  /\ text_at sample_world_linked (TARGET_DIR ++ lit "/notes.md")
     = Some (lit "// not a target" ++ [10%N])
  /\ exists w',
       main sample_os_walk sample_world_linked = (Ok tt, w')
       /\ trace w' = [Opened_r (TARGET_DIR ++ lit "/a.ts");
                      Written (TARGET_DIR ++ lit "/a.ts") (lit "not a target" ++ [10%N]);
                      Opened_r (TARGET_DIR ++ lit "/lib/b.tsx");
                      Opened_r (TARGET_DIR ++ lit "/lib/c.ts")]
       /\ text_at w' (TARGET_DIR ++ lit "/notes.md") = Some (lit "not a target" ++ [10%N]).
Proof.
  split; [by vm_compute |]. split; [exists 2%N; by vm_compute |]. split; [by vm_compute |].
  exists (snd (main sample_os_walk sample_world_linked)).
  split; [apply pair_fst; vm_compute; reflexivity |]. by vm_compute.
Qed.

End Run.

(** ** Text and lines *)

Section Lines.

Implicit Types (s t l tail : str) (ls init : list str).

Lemma concat_readlines s : concat (readlines s) = s.
Proof.
  induction s as [|c s IH]; [done |]. cbn [readlines].
  destruct (c =? 10)%N.
  - cbn [concat app]. by rewrite IH.
  - destruct (readlines s) as [|l ls]; cbn [concat app] in *; by rewrite <- IH.
Qed.

(** [readlines] cuts after every "\n". *)
Lemma readlines_terminated l s :
  terminated l -> readlines (l ++ s) = l :: readlines s.
Proof.
  intros (body & -> & Hbody). rewrite <- app_assoc. cbn [app].
  induction body as [|c body IH]; cbn [app readlines].
  - done.
  - apply not_elem_of_cons in Hbody as [Hc Hbody].
    destruct (N.eqb_spec c 10) as [-> |]; [done |]. by rewrite IH.
Qed.

Lemma readlines_final tail : 10%N ∉ tail -> readlines tail = final_line tail.
Proof.
  induction tail as [|c tail IH]; intros H; [done |].
  apply not_elem_of_cons in H as [Hc H]. cbn [readlines].
  destruct (N.eqb_spec c 10) as [-> |]; [done |]. rewrite IH by done.
  by destruct tail.
Qed.

Lemma readlines_concat init tail :
  Forall terminated init -> 10%N ∉ tail ->
  readlines (concat init ++ tail) = init ++ final_line tail.
Proof.
  intros Hinit Htail. induction Hinit as [|l init Hl _ IH]; cbn [concat app].
  - by apply readlines_final.
  - rewrite <- app_assoc, readlines_terminated by done. by rewrite IH.
Qed.

(** What [readlines] returns: terminated lines, then at most one
    unterminated line. *)
Lemma readlines_shape s :
  exists init tail,
    readlines s = init ++ final_line tail /\ Forall terminated init /\ 10%N ∉ tail.
Proof.
  induction s as [|c s (init & tail & Hs & Hinit & Htail)].
  - exists [], []. repeat split; [constructor | apply not_elem_of_nil].
  - cbn [readlines]. destruct (N.eqb_spec c 10) as [-> | Hc].
    + exists ([10%N] :: init), tail. rewrite Hs. repeat split; [| done].
      constructor; [| done]. exists []. split; [done | apply not_elem_of_nil].
    + rewrite Hs. destruct init as [|l init]; cbn [app].
      * exists [], (c :: tail). split; [by destruct tail |].
        split; [constructor | by apply not_elem_of_cons].
      * exists ((c :: l) :: init), tail. split; [done |]. split; [| done].
        apply Forall_cons in Hinit as [(body & -> & Hbody) Hinit].
        constructor; [| done]. exists (c :: body).
        split; [done | by apply not_elem_of_cons].
Qed.

Lemma universal_newlines_ind (P : str -> Prop) :
  P [] ->
  (forall t, P t -> P (13%N :: 10%N :: t)) ->
  (forall t, head t <> Some 10%N -> P t -> P (13%N :: t)) ->
  (forall c t, c <> 13%N -> P t -> P (c :: t)) ->
  forall s, P s.
Proof.
  intros Hnil Hcrlf Hcr Hother s.
  induction s as [s IH] using (induction_ltof1 _ (@length N)). unfold ltof in IH.
  destruct s as [|c s]; [done |].
  destruct (N.eq_dec c 13%N) as [-> | Hc].
  - destruct s as [|c' s].
    + apply Hcr; [done | by apply IH; simpl; lia].
    + destruct (N.eq_dec c' 10%N) as [-> | Hc'].
      * apply Hcrlf, IH. simpl. lia.
      * apply Hcr; [simpl; congruence | apply IH; simpl; lia].
  - apply Hother; [done | apply IH; simpl; lia].
Qed.

Lemma universal_newlines_cr t :
  head t <> Some 10%N -> universal_newlines (13%N :: t) = 10%N :: universal_newlines t.
Proof.
  intros H. destruct t as [|c t]; [done |]. cbn [universal_newlines N.eqb Pos.eqb].
  destruct (N.eqb_spec c 10) as [-> |]; [by simpl in H | done].
Qed.

Lemma universal_newlines_other c t :
  c <> 13%N -> universal_newlines (c :: t) = c :: universal_newlines t.
Proof. intros H. cbn [universal_newlines]. by destruct (N.eqb_spec c 13). Qed.

Lemma universal_newlines_length s : length (universal_newlines s) <= length s.
Proof.
  induction s as [| t IH | t Ht IH | c t Hc IH] using universal_newlines_ind.
  - done.
  - change (universal_newlines (13%N :: 10%N :: t)) with (10%N :: universal_newlines t).
    simpl. lia.
  - rewrite universal_newlines_cr by done. simpl. lia.
  - rewrite universal_newlines_other by done. simpl. lia.
Qed.

Lemma universal_newlines_no_cr s : 13%N ∉ universal_newlines s.
Proof.
  induction s as [| t IH | t Ht IH | c t Hc IH] using universal_newlines_ind.
  - apply not_elem_of_nil.
  - change (universal_newlines (13%N :: 10%N :: t)) with (10%N :: universal_newlines t).
    by apply not_elem_of_cons.
  - rewrite universal_newlines_cr by done. by apply not_elem_of_cons.
  - rewrite universal_newlines_other by done. apply not_elem_of_cons. split; [congruence | done].
Qed.

Lemma universal_newlines_id s : 13%N ∉ s -> universal_newlines s = s.
Proof.
  induction s as [|c s IH]; intros H; [done |].
  apply not_elem_of_cons in H as [Hc H].
  rewrite universal_newlines_other by congruence. by rewrite IH.
Qed.

End Lines.

(** ** Rewriting a text *)

Section Rewrite.

Implicit Types (s t l tail text : str) (ls init lines : list str).

Lemma uncomment_line_terminated l : terminated l -> terminated (uncomment_line l).
Proof.
  intros (body & Hl & Hbody).
  assert (Hcut : forall ws m rest x, last m = Some x -> x <> 10%N ->
            l = ws ++ m ++ rest -> terminated (ws ++ rest)).
  { intros ws m rest x Hm Hx Hcut.
    destruct rest as [|y rest _] using rev_ind.
    - rewrite Hl, app_nil_r in Hcut.
      apply (f_equal last) in Hcut. rewrite last_snoc, last_app, Hm in Hcut. congruence.
    - rewrite Hl, !app_assoc in Hcut. apply app_inj_tail in Hcut as [Hb Hy].
      subst body y. exists (ws ++ rest). split; [by rewrite app_assoc |].
      rewrite !elem_of_app in *. tauto. }
  destruct (uncomment_line_cases l)
    as [(_ & ws & rest & _ & Hcase & ->) | [(_ & _ & ws & rest & _ & Hcase & ->) | (_ & _ & ->)]].
  - by apply (Hcut ws (lit "// ") rest 32%N).
  - by apply (Hcut ws (lit "//") rest 47%N).
  - by exists body.
Qed.

Lemma uncomment_line_keeps_out c l : c ∉ l -> c ∉ uncomment_line l.
Proof. intros H Hin. apply H. eapply elem_of_sublist, uncomment_line_sublist. done. Qed.

(** Only the bare marker is turned into the empty string. *)
Lemma uncomment_line_empty l : uncomment_line l = [] -> l = [] \/ l = lit "//".
Proof.
  destruct (uncomment_line_cases l)
    as [(H3 & ws & rest & _ & Hl & ->) | [(_ & _ & ws & rest & _ & Hl & ->) | (_ & _ & ->)]].
  - intros [-> ->]%app_eq_nil. subst l. vm_compute in H3. discriminate.
  - intros [-> ->]%app_eq_nil. right. by rewrite Hl.
  - by left.
Qed.

Lemma concat_no_elem (c : N) ls : (forall l, l ∈ ls -> c ∉ l) -> c ∉ concat ls.
Proof.
  intros H Hin. apply list_elem_of_In, in_concat in Hin as (l & Hl & Hc).
  apply (H l); by apply list_elem_of_In.
Qed.

Lemma lines_no_cr text l : l ∈ lines_of text -> 13%N ∉ l.
Proof.
  intros Hl Hc. apply (universal_newlines_no_cr text).
  rewrite <- (concat_readlines (universal_newlines text)).
  apply list_elem_of_In, in_concat. exists l. split; by apply list_elem_of_In.
Qed.

Lemma rewritten_no_cr text : 13%N ∉ rewritten text.
Proof.
  apply concat_no_elem. intros l' (l & -> & Hl)%list_elem_of_fmap.
  apply uncomment_line_keeps_out. by eapply lines_no_cr.
Qed.

(** The lines of a rewritten text, as a later run reads them back. *)
Lemma lines_of_rewritten text :
  exists init tail,
    lines_of text = init ++ final_line tail /\ Forall terminated init /\ (10%N ∉ tail)
    /\ lines_of (rewritten text) = map uncomment_line init ++ final_line (uncomment_line tail).
Proof.
  destruct (readlines_shape (universal_newlines text)) as (init & tail & Hs & Hinit & Htail).
  exists init, tail. repeat split; [done.. |].
  unfold lines_of at 1. rewrite universal_newlines_id by apply rewritten_no_cr.
  unfold rewritten, lines_of. rewrite Hs, map_app, concat_app.
  replace (concat (map uncomment_line (final_line tail))) with (uncomment_line tail)
    by (destruct tail; [done | simpl; by rewrite app_nil_r]).
  apply readlines_concat.
  - apply Forall_fmap. eapply Forall_impl; [exact Hinit |]. apply uncomment_line_terminated.
  - by apply uncomment_line_keeps_out.
Qed.

Lemma terminated_not_marker l : terminated l -> l <> lit "//".
Proof.
  intros (body & -> & _) H. apply (f_equal last) in H. rewrite last_snoc in H. discriminate.
Qed.

(** A qualifying text has a comment-marked line, so rewriting shortens it. *)
Lemma rewritten_shorter text : qualifies text = true -> length (rewritten text) < length text.
Proof.
  intros Hq%qualifies_commented.
  pose proof (universal_newlines_length text) as Hlen.
  rewrite <- (concat_readlines (universal_newlines text)) in Hlen. fold (lines_of text) in Hlen.
  assert (Hc : exists l, l ∈ commented (lines_of text)).
  { destruct (commented (lines_of text)) as [|l ?]; [done |].
    exists l. apply list_elem_of_here. }
  destruct Hc as [l Hl]. unfold commented, non_empty in Hl.
  apply list_elem_of_filter in Hl as [Hl1 [_ Hl2]%list_elem_of_filter].
  enough (length (rewritten text) < length (concat (lines_of text))) by lia.
  unfold rewritten. revert Hl2. generalize (lines_of text) as ls. clear Hq Hlen.
  induction ls as [|k ls IH]; intros Hin; [by apply elem_of_nil in Hin |].
  cbn [map concat]. rewrite !length_app.
  pose proof (uncomment_line_length k).
  apply elem_of_cons in Hin as [<- | Hin].
  - pose proof (uncomment_line_shorter l Hl1).
    assert (length (concat (map uncomment_line ls)) <= length (concat ls)); [| lia].
    clear. induction ls as [|k ls IH]; [done |]. cbn [map concat]. rewrite !length_app.
    pose proof (uncomment_line_length k). lia.
  - specialize (IH Hin). lia.
Qed.

(** When no line still starts with the marker once its first marker is
    removed, the rewritten text has no comment-marked line left. *)
Lemma rewritten_disqualified text :
  (forall l, l ∈ lines_of text -> startswith (strip (uncomment_line l)) (lit "//") = false) ->
  qualifies (rewritten text) = false.
Proof.
  intros H. destruct (lines_of_rewritten text) as (init & tail & Hl & _ & _ & Hr).
  rewrite qualifies_eq, Hr.
  enough (Hc : commented (map uncomment_line init ++ final_line (uncomment_line tail)) = [])
    by (rewrite Hc; simpl; by rewrite float_gt_095_zero, andb_false_r).
  destruct (commented _) as [|l' r] eqn:E; [done |]. exfalso.
  assert (Hin : l' ∈ l' :: r) by apply list_elem_of_here.
  rewrite <- E in Hin. unfold commented, non_empty in Hin.
  apply list_elem_of_filter in Hin as [Hsw [_ Hin]%list_elem_of_filter].
  apply not_true_iff_false in Hsw; [done |].
  apply elem_of_app in Hin as [(l & -> & Hin)%list_elem_of_fmap | Hin].
  - apply H. rewrite Hl. apply elem_of_app. by left.
  - destruct (uncomment_line tail) as [|c r'] eqn:Et; [by apply elem_of_nil in Hin |].
    apply list_elem_of_singleton in Hin as ->. rewrite <- Et. apply H.
    rewrite Hl. apply elem_of_app. right.
    destruct tail; [discriminate | apply list_elem_of_here].
Qed.

(** C3, as the code has it. One pass over a qualifying file does not always
    disqualify it.  The second pass is a no-op exactly when the rewritten
    text no longer qualifies, which is the case whenever no line still
    starts with the marker after its first marker is removed; when the
    rewritten text still qualifies, the second pass shortens it again. *)
Theorem second_pass_noop_iff_disqualified (text : str) :
  qualifies text = true ->
  run_once text = rewritten text
  /\ length (run_once text) < length text
  /\ (run_once (run_once text) = run_once text <-> qualifies (run_once text) = false)
  /\ (qualifies (run_once text) = true ->
      length (run_once (run_once text)) < length (run_once text))
  /\ ((forall l, l ∈ lines_of text ->
         startswith (strip (uncomment_line l)) (lit "//") = false) ->
      run_once (run_once text) = run_once text)
  /\ (forall root file w count,
        is_target file = true ->
        text_at w (os_path_join root file) = Some text ->
        accepts_write w (os_path_join root file) = true ->
        exists w' count',
          visit root file (w, count) = (Ok tt, (w', count'))
          /\ text_at w' (os_path_join root file) = Some (run_once text))
  /\ (forall root file w count w' count',
        is_target file = true ->
        text_at w (os_path_join root file) = Some text ->
        visit root file (w, count) = (Ok tt, (w', count')) ->
        text_at w' (os_path_join root file) = Some (run_once text)).
Proof.
  intros Hq.
  assert (H1 : run_once text = rewritten text) by (unfold run_once; by rewrite Hq).
  assert (H2 : forall t, qualifies t = true -> length (run_once t) < length t).
  { intros t Ht. unfold run_once. rewrite Ht. by apply rewritten_shorter. }
  split; [done |]. split; [by apply H2 |]. split; [| split; [| split; [| split]]].
  - split.
    + intros Heq. destruct (qualifies (run_once text)) eqn:E; [| done].
      apply H2 in E. rewrite Heq in E. lia.
    + intros E. unfold run_once at 1. by rewrite E.
  - apply H2.
  - intros H. rewrite H1. unfold run_once. by rewrite rewritten_disqualified.
  - intros root file w count. by apply visit_run_once.
  - intros root file w count w' count' Ht Htext Hv. by eapply visit_completed.
Qed.

Lemma second_pass_noop_iff_disqualified_witness :
  run_once (lit "// x" ++ [10%N]) = rewritten (lit "// x" ++ [10%N])
  /\ length (run_once (lit "// x" ++ [10%N])) < length (lit "// x" ++ [10%N])
  /\ (run_once (run_once (lit "// x" ++ [10%N])) = run_once (lit "// x" ++ [10%N]) <->
      qualifies (run_once (lit "// x" ++ [10%N])) = false)
  /\ (qualifies (run_once (lit "// x" ++ [10%N])) = true ->
      length (run_once (run_once (lit "// x" ++ [10%N]))) < length (run_once (lit "// x" ++ [10%N])))
  /\ ((forall l, l ∈ lines_of (lit "// x" ++ [10%N]) ->
         startswith (strip (uncomment_line l)) (lit "//") = false) ->
      run_once (run_once (lit "// x" ++ [10%N])) = run_once (lit "// x" ++ [10%N]))
  /\ (forall root file w count,
        is_target file = true ->
        text_at w (os_path_join root file) = Some (lit "// x" ++ [10%N]) ->
        accepts_write w (os_path_join root file) = true ->
        exists w' count',
          visit root file (w, count) = (Ok tt, (w', count'))
          /\ text_at w' (os_path_join root file) = Some (run_once (lit "// x" ++ [10%N])))
  /\ (forall root file w count w' count',
        is_target file = true ->
        text_at w (os_path_join root file) = Some (lit "// x" ++ [10%N]) ->
        visit root file (w, count) = (Ok tt, (w', count')) ->
        text_at w' (os_path_join root file) = Some (run_once (lit "// x" ++ [10%N]))).
Proof.
  apply (second_pass_noop_iff_disqualified (lit "// x" ++ [10%N])). reflexivity.
Defined.

(** C3 as stated fails: a qualifying file whose line carries the marker
    twice still qualifies after one pass, and the second pass changes it. *)
Lemma second_pass_changes_nested_markers :
  qualifies nested_text = true
  /\ run_once nested_text = lit "// x" ++ [10%N]
  /\ run_once (run_once nested_text) = lit "x" ++ [10%N]
  /\ run_once (run_once nested_text) <> run_once nested_text.
Proof. vm_compute. repeat split. discriminate. Qed.

(** C9, as the code has it. Each line read is mapped to one string, so as
    many strings are written as lines were read, each the transform of the
    line at its place.  Read back, the rewritten text has these strings as
    its lines, except when the last line is an unterminated bare marker:
    that line becomes the empty string and the text has one line fewer. *)
Theorem rewrite_line_count (text : str) :
  length (map uncomment_line (lines_of text)) = length (lines_of text)
  /\ (forall i l, lines_of text !! i = Some l ->
        map uncomment_line (lines_of text) !! i = Some (uncomment_line l))
  /\ (last (lines_of text) <> Some (lit "//") ->
      lines_of (rewritten text) = map uncomment_line (lines_of text)
      /\ length (lines_of (rewritten text)) = length (lines_of text))
  /\ (last (lines_of text) = Some (lit "//") ->
      lines_of (rewritten text) = removelast (map uncomment_line (lines_of text))
      /\ length (lines_of (rewritten text)) + 1 = length (lines_of text)).
Proof.
  split; [apply length_map |]. split.
  { intros i l Hl.
    change (map uncomment_line (lines_of text)) with (uncomment_line <$> lines_of text).
    by rewrite list_lookup_fmap, Hl. }
  destruct (lines_of_rewritten text) as (init & tail & Hl & Hinit & Htail & Hr).
  rewrite Hr, Hl, map_app. split.
  - intros Hlast.
    assert (Hf : final_line (uncomment_line tail) = map uncomment_line (final_line tail)).
    { destruct tail as [|c tail']; [done |]. cbn [final_line map].
      destruct (uncomment_line (c :: tail')) as [|c' r] eqn:E; [| done].
      apply uncomment_line_empty in E as [E | E]; [discriminate |].
      exfalso. apply Hlast. rewrite E. apply last_snoc. }
    rewrite Hf. split; [done |]. by rewrite <- map_app, length_map.
  - intros Hlast.
    assert (Ht : tail = lit "//").
    { destruct tail as [|c tail'].
      - simpl in Hlast. rewrite app_nil_r in Hlast.
        apply last_Some_elem_of in Hlast. rewrite Forall_forall in Hinit.
        apply Hinit in Hlast. by apply terminated_not_marker in Hlast.
      - cbn [final_line] in Hlast. rewrite last_snoc in Hlast. congruence. }
    subst tail.
    change (final_line (uncomment_line (lit "//"))) with (@nil str).
    change (map uncomment_line (final_line (lit "//"))) with [@nil N].
    rewrite app_nil_r, removelast_last. split; [done |].
    rewrite !length_app, length_map. simpl. lia.
Qed.

(** C9 as stated fails: a file that is one bare marker has one line, and
    is rewritten to the empty text, which has none. *)
Lemma bare_marker_line_vanishes :
  qualifies bare_marker_text = true
  /\ lines_of bare_marker_text = [lit "//"]
  /\ map uncomment_line (lines_of bare_marker_text) = [[]]
  /\ run_once bare_marker_text = []
  /\ lines_of (run_once bare_marker_text) = []
  /\ length (lines_of (run_once bare_marker_text)) <> length (lines_of bare_marker_text).
Proof. vm_compute. repeat split. discriminate. Qed.

End Rewrite.

(** ** Further properties of the script *)

Section Further.

Implicit Types (line l ws rest text : str) (lines : list str) (w : world).

(** *** The per-line transform *)

Lemma indent_lstrip line :
  line = indent line ++ lstrip line /\ forallb isspace (indent line) = true.
Proof.
  destruct (lstrip_split line) as (ws & Hl & Hws).
  assert (Hi : indent line = ws).
  { unfold indent. rewrite Hl at 1 3. rewrite length_app.
    replace (length ws + length (lstrip line) - length (lstrip line)) with (length ws) by lia.
    by rewrite take_app_length. }
  rewrite Hi. by split.
Qed.

Lemma startswith_shorter s p q : startswith s (p ++ q) = true -> startswith s p = true.
Proof.
  rewrite !startswith_iff. intros [r ->]. exists (q ++ r). by rewrite app_assoc.
Qed.

(** X1. The occurrence that [replace] removes is always the leading marker:
    the result is the line's leading whitespace followed by the rest of the
    line without its first two or three characters, as the comment in the
    source says. *)
Theorem uncomment_line_removes_leading_marker (line : str) :
  line = indent line ++ lstrip line
  /\ forallb isspace (indent line) = true
  /\ uncomment_line line = indent line ++ drop (marker_width line) (lstrip line).
Proof.
  destruct (indent_lstrip line) as [Hl Hws]. split; [done |]. split; [done |].
  unfold uncomment_line, marker_width.
  destruct (startswith (strip line) (lit "// ")) eqn:H3.
  - apply startswith_strip, startswith_iff in H3 as [rest Hrest].
    rewrite Hl at 1. rewrite Hrest.
    change (drop 3 (lit "// " ++ rest)) with rest. by apply replace1_marker.
  - destruct (startswith (strip line) (lit "//")) eqn:H2.
    + apply startswith_strip, startswith_iff in H2 as [rest Hrest].
      rewrite Hl at 1. rewrite Hrest.
      change (drop 2 (lit "//" ++ rest)) with rest. by apply replace1_marker.
    + by rewrite drop_0.
Qed.

(** X2. A line is changed exactly when it is comment-marked: the transform
    returns the line as it is if and only if its stripped form does not
    start with the marker. *)
Theorem uncomment_line_fixed_iff (line : str) :
  uncomment_line line = line <-> startswith (strip line) (lit "//") = false.
Proof.
  split.
  - intros Heq. destruct (startswith (strip line) (lit "//")) eqn:H2; [| done].
    apply uncomment_line_shorter in H2. rewrite Heq in H2. lia.
  - intros H2. unfold uncomment_line. rewrite H2.
    destruct (startswith (strip line) (lit "// ")) eqn:H3; [| done].
    apply (startswith_shorter _ (lit "//") (lit " ")) in H3. congruence.
Qed.

Lemma count_char_app c s t : count_char c (s ++ t) = count_char c s + count_char c t.
Proof. apply count_occ_app. Qed.

Lemma count_char_concat c (ls ls' : list str) :
  Forall2 (fun l l' => count_char c l = count_char c l') ls ls' ->
  count_char c (concat ls) = count_char c (concat ls').
Proof.
  induction 1 as [|l l' ls ls' Hl _ IH]; [done |].
  cbn [concat]. by rewrite !count_char_app, Hl, IH.
Qed.

Lemma count_char_uncomment c line :
  c <> 47%N -> c <> 32%N -> count_char c (uncomment_line line) = count_char c line.
Proof.
  intros H47 H32.
  assert (Hm2 : count_char c (lit "//") = 0).
  { unfold count_char. change (lit "//") with [47%N; 47%N]. cbn [count_occ].
    by destruct (N.eq_dec 47%N c). }
  assert (Hm3 : count_char c (lit "// ") = 0).
  { unfold count_char. change (lit "// ") with [47%N; 47%N; 32%N]. cbn [count_occ].
    by destruct (N.eq_dec 47%N c), (N.eq_dec 32%N c). }
  destruct (uncomment_line_cases line)
    as [(_ & ws & rest & _ & Hl & ->) | [(_ & _ & ws & rest & _ & Hl & ->) | (_ & _ & ->)]];
    [| | done]; rewrite Hl, !count_char_app; lia.
Qed.

(** X3. The transform takes out nothing but two slashes and at most one
    space: every other character, line terminators among them, occurs as
    often after as before, in each line and in the whole rewritten text; a
    comment-marked line loses exactly two slashes, and exactly one space
    when its stripped form starts with the marker and a space, none
    otherwise; the line is shorter by just these characters. *)
Theorem uncomment_keeps_other_characters :
  (forall line c, c <> 47%N -> c <> 32%N ->
     count_char c (uncomment_line line) = count_char c line)
  /\ (forall line,
        count_char 47 (uncomment_line line)
        + (if startswith (strip line) (lit "//") then 2 else 0) = count_char 47 line)
  /\ (forall line,
        count_char 32 (uncomment_line line)
        + (if startswith (strip line) (lit "// ") then 1 else 0) = count_char 32 line)
  /\ (forall line,
        length (uncomment_line line) + marker_width line = length line)
  /\ (forall text c, c <> 47%N -> c <> 32%N ->
        count_char c (rewritten text) = count_char c (universal_newlines text)).
Proof.
  split; [intros line c; apply count_char_uncomment |]. split; [| split; [| split]].
  3: { intros line. unfold marker_width.
       destruct (uncomment_line_cases line)
         as [(H3 & ws & rest & _ & Hl & ->) | [(H3 & H2 & ws & rest & _ & Hl & ->) | (H3 & H2 & ->)]].
       - rewrite H3, Hl, !length_app. simpl. lia.
       - rewrite H3, H2, Hl, !length_app. simpl. lia.
       - rewrite H3, H2. lia. }
  2: { intros line.
       destruct (uncomment_line_cases line)
         as [(H3 & ws & rest & _ & Hl & ->) | [(H3 & H2 & ws & rest & _ & Hl & ->) | (H3 & H2 & ->)]].
       - rewrite H3, Hl, !count_char_app. change (count_char 32 (lit "// ")) with 1. lia.
       - rewrite H3, Hl, !count_char_app. change (count_char 32 (lit "//")) with 0. lia.
       - rewrite H3. lia. }
  - intros line.
    destruct (uncomment_line_cases line)
      as [(H3 & ws & rest & _ & Hl & ->) | [(_ & H2 & ws & rest & _ & Hl & ->) | (_ & H2 & ->)]].
    + rewrite (startswith_shorter _ (lit "//") (lit " ") H3).
      rewrite Hl, !count_char_app. change (count_char 47 (lit "// ")) with 2. lia.
    + rewrite H2, Hl, !count_char_app. change (count_char 47 (lit "//")) with 2. lia.
    + rewrite H2. lia.
  - intros text c H47 H32. unfold rewritten.
    rewrite <- (concat_readlines (universal_newlines text)) at 1. fold (lines_of text).
    apply count_char_concat. generalize (lines_of text) as ls.
    induction ls as [|l ls IH]; constructor; [by apply count_char_uncomment | done].
Qed.

(** X4. Only the bare marker becomes the empty string: the transform
    returns the empty string exactly for the empty line and for the line
    that is the two characters of the marker. *)
Theorem uncomment_line_empty_iff (line : str) :
  uncomment_line line = [] <-> line = [] \/ line = lit "//".
Proof.
  split; [apply uncomment_line_empty |]. by intros [-> | ->].
Qed.

(** *** The classifier *)

Lemma lstrip_keeps_nonspace u a v :
  isspace a = false -> exists u', lstrip (u ++ a :: v) = u' ++ a :: v.
Proof.
  intros Ha. induction u as [|c u [u' IH]]; simpl.
  - exists []. by rewrite Ha.
  - destruct (isspace c); [by exists u' | by exists (c :: u)].
Qed.

(** Stripping never reaches a character that is not whitespace. *)
Lemma strip_keeps_marker ws rest :
  forallb isspace ws = true ->
  startswith (strip (ws ++ lit "//" ++ rest)) (lit "//") = true.
Proof.
  intros Hws. unfold strip. rewrite lstrip_spaces_app by done.
  change (lit "//" ++ rest) with (47%N :: 47%N :: rest).
  rewrite lstrip_nonspace by done. unfold rstrip.
  change (47%N :: 47%N :: rest) with ([47%N] ++ 47%N :: rest).
  rewrite rev_app_distr. cbn [rev app]. rewrite <- app_assoc. cbn [app].
  destruct (lstrip_keeps_nonspace (rev rest) 47%N [47%N] eq_refl) as [u' ->].
  rewrite rev_app_distr. cbn [rev app]. apply (startswith_app (rev u') (lit "//")).
Qed.

Lemma startswith_marker_iff l :
  startswith (strip l) (lit "//") = true <->
  exists ws rest, forallb isspace ws = true /\ l = ws ++ lit "//" ++ rest.
Proof.
  split; [apply strip_startswith_split |].
  intros (ws & rest & Hws & ->). by apply strip_keeps_marker.
Qed.

(** X5. A line counts as commented exactly when it is whitespace followed
    by the marker, whatever comes after; such a line is never blank, so the
    comment-marked lines are picked from all lines as from the non-empty
    ones. *)
Theorem commented_iff_leading_marker lines :
  (forall l, l ∈ commented lines <->
     l ∈ lines /\ exists ws rest, forallb isspace ws = true /\ l = ws ++ lit "//" ++ rest)
  /\ commented lines = filter (fun l => startswith (strip l) (lit "//") = true) lines.
Proof.
  assert (Hne : forall l, startswith (strip l) (lit "//") = true -> truthy (strip l) = true).
  { intros l H. apply startswith_iff in H as [r ->]. done. }
  split.
  - intros l. rewrite <- startswith_marker_iff. unfold commented, non_empty.
    rewrite !list_elem_of_filter. split; [tauto |]. intros [Hin H]. auto.
  - unfold commented, non_empty. induction lines as [|l lines IH]; [done |].
    rewrite !filter_cons. destruct (decide (startswith (strip l) (lit "//") = true)) as [H | H].
    + rewrite decide_True by auto. rewrite filter_cons, decide_True by done. by rewrite IH.
    + destruct (decide (truthy (strip l) = true)); [| done].
      rewrite filter_cons, decide_False by done. done.
Qed.

Lemma truthy_length {A} (l : list A) : truthy l = negb (length l =? 0).
Proof. by destruct l. Qed.

(** X6. The classifier looks at nothing but the non-empty lines, and not at
    their order: two files whose non-empty lines are the same up to order
    are classified alike, so blank lines and reordering change nothing. *)
Theorem is_fully_commented_perm lines lines' :
  non_empty lines ≡ₚ non_empty lines' ->
  is_fully_commented lines = is_fully_commented lines'.
Proof.
  intros Hp. rewrite !is_fully_commented_eq, !truthy_length.
  assert (Hc : commented lines ≡ₚ commented lines') by (unfold commented; by rewrite Hp).
  by rewrite (Permutation_length Hp), (Permutation_length Hc).
Qed.

Lemma is_fully_commented_perm_witness :
  is_fully_commented sample_lines = is_fully_commented sample_lines_shuffled.
Proof.
  apply (is_fully_commented_perm sample_lines sample_lines_shuffled).
  vm_compute. apply perm_swap.
Defined.

(** X7. With fewer than 2^52 non-empty lines the classifier answers by
    whole numbers: a file qualifies exactly when its comment-marked lines
    are more than nineteen times its other non-empty lines, so one line of
    code is tolerated from twenty comment-marked lines on, and a file with
    no comment-marked line never qualifies. *)
Theorem is_fully_commented_integer_criterion lines :
  (Z.of_nat (length (non_empty lines)) < 2 ^ 52)%Z ->
  is_fully_commented lines =
  Ok (bool_decide (19 * (length (non_empty lines) - length (commented lines))
                   < length (commented lines))).
Proof.
  intros Hlt. rewrite is_fully_commented_eq. f_equal.
  pose proof (commented_le lines) as Hle.
  destruct (non_empty lines) as [|l ls] eqn:E.
  - simpl in *. symmetry. apply bool_decide_eq_false. lia.
  - cbn [truthy andb]. apply eq_true_iff_eq.
    rewrite float_gt_095_exact, bool_decide_eq_true by (simpl in *; lia).
    unfold Qlt, exact_ratio. cbn [Qnum Qden]. simpl length in *. lia.
Qed.

Lemma is_fully_commented_integer_criterion_witness :
  is_fully_commented (lines_of boundary_text) =
  Ok (bool_decide (19 * (length (non_empty (lines_of boundary_text))
                         - length (commented (lines_of boundary_text)))
                   < length (commented (lines_of boundary_text)))).
Proof.
  apply (is_fully_commented_integer_criterion (lines_of boundary_text)).
  vm_compute. reflexivity.
Defined.

(** *** The loops *)

Lemma ending_Ok w ps : ending w ps = Ok tt <-> Forall (fun q => fine w q = true) ps.
Proof.
  induction ps as [|p ps IH]; cbn [ending]; [by split |].
  destruct (fine w p) eqn:Hp.
  - rewrite IH. split; [by constructor | by intros [_ ?]%Forall_cons].
  - split; [done |]. intros [? _]%Forall_cons. congruence.
Qed.

Lemma ending_Raise w ps e :
  ending w ps = Raise e -> exists p, p ∈ ps /\ fine w p = false /\ e = failure w p.
Proof.
  induction ps as [|p ps IH]; cbn [ending]; [done |].
  destruct (fine w p) eqn:Hp.
  - intros (q & Hq & H)%IH. exists q. split; [by apply list_elem_of_further | done].
  - intros [= <-]. exists p. split; [apply list_elem_of_here | done].
Qed.

Lemma failure_cases w p :
  failure w p = UnicodeDecodeError \/ failure w p = OSError p.
Proof.
  unfold failure. destruct (file_at w p) as [[[text |] m] |]; cbn [contents]; auto.
Qed.

Lemma console_ne_summary x n : console_line x <> summary_line n.
Proof.
  unfold console_line, summary_line.
  change (lit "Uncommenting: " ++ x) with (85%N :: (lit "ncommenting: " ++ x)).
  change (lit "Total files uncommented: " ++ str_of_nat n)
    with (84%N :: (lit "otal files uncommented: " ++ str_of_nat n)).
  congruence.
Qed.

(** The run as the loops leave it. *)
Lemma main_loops os_walk w :
  exists w1 count evs,
    main os_walk w =
      match ending w (target_paths (os_walk TARGET_DIR)) with
      | Ok _ => (Ok tt, print (summary_line count) w1)
      | Raise e => (Raise e, w1)
      end
    /\ names w1 = names w
    /\ (forall i, is_Some (disk w1 !! i) <-> is_Some (disk w !! i))
    /\ trace w1 = trace w ++ evs
    /\ (forall e, e ∈ evs -> event_path e ∈ reached w (target_paths (os_walk TARGET_DIR)))
    /\ stdout w1 =
       stdout w ++ map (fun e => console_line (event_path e)) (writes evs)
                ++ pending w (target_paths (os_walk TARGET_DIR))
    /\ count = length (writes evs)
    /\ (ending w (target_paths (os_walk TARGET_DIR)) = Ok tt -> paired evs = true)
    /\ (forall i,
          (forall p, p ∈ reached w (target_paths (os_walk TARGET_DIR)) ->
                     names w !! p <> Some i) ->
          disk w1 !! i = disk w !! i).
Proof.
  destruct (loops_invariant (walk_files (os_walk TARGET_DIR)) w 0)
    as (w1 & count & evs & Hrun & H).
  exists w1, count, evs. split; [| exact H].
  by rewrite (loops_main _ _ _ _ _ Hrun).
Qed.

(** X8. The first target file that the script cannot get past ends the
    run: when the walk's target paths before some path all lead to files
    that decode and, if they qualify, accept the write, and that path does
    not, the run ends there, in [OSError] for a path that cannot be opened
    or a qualifying file that cannot be written, in [UnicodeDecodeError]
    for a file that does not decode.  The console then shows the lines of
    the files written so far, and that of the file whose write failed, and
    no summary line. *)
Theorem main_raises_at_first_failure os_walk w pre p post :
  target_paths (os_walk TARGET_DIR) = pre ++ p :: post ->
  Forall (fun q => fine w q = true) pre ->
  fine w p = false ->
  exists w' evs,
    main os_walk w = (Raise (failure w p), w')
    /\ (file_at w p = None -> failure w p = OSError p /\ announced w p = false)
    /\ (forall f, file_at w p = Some f -> contents f = Undecodable ->
          failure w p = UnicodeDecodeError /\ announced w p = false)
    /\ (forall f text, file_at w p = Some f -> contents f = Text text ->
          failure w p = OSError p /\ announced w p = true /\ accepts f = false)
    /\ trace w' = trace w ++ evs
    /\ (forall e, e ∈ evs -> event_path e ∈ pre ++ [p])
    /\ stdout w' =
       stdout w ++ map (fun e => console_line (event_path e)) (writes evs)
                ++ (if announced w p then [console_line p] else [])
    /\ (forall n, summary_line n ∉
          map (fun e => console_line (event_path e)) (writes evs)
          ++ (if announced w p then [console_line p] else [])).
Proof.
  intros Hps Hpre Hp.
  destruct (main_loops os_walk w)
    as (w1 & count & evs & Hmain & _ & _ & Htr & Hev & Hout & _ & _ & _).
  destruct (reached_fail w pre p post Hpre Hp) as (He & Hr & Hpe).
  rewrite Hps, He in Hmain. rewrite Hps, Hr in Hev. rewrite Hps, Hpe in Hout.
  exists w1, evs. split; [done |].
  split; [| split; [| split; [| split; [| split; [| split]]]]]; try done.
  - unfold failure, announced. by intros ->.
  - unfold failure, announced, announced_file. by intros f -> ->.
  - unfold fine, failure, announced, announced_file, fine_file in *.
    intros f text Hf Hc. rewrite Hf in *. rewrite Hc in *.
    destruct (qualifies text); cbn [negb orb] in Hp; [done | discriminate].
  - intros n [Hin | Hin]%elem_of_app.
    + apply list_elem_of_fmap in Hin as (e & Heq & _). symmetry in Heq.
      by apply console_ne_summary in Heq.
    + destruct (announced w p); [| by apply elem_of_nil in Hin].
      apply list_elem_of_singleton in Hin. symmetry in Hin. by apply console_ne_summary in Hin.
Qed.

Lemma main_raises_at_first_failure_witness :
  (exists w',
     main sample_os_walk sample_world_unreadable =
       (Raise (OSError (TARGET_DIR ++ lit "/lib/b.tsx")), w')
     /\ stdout w' = [console_line (TARGET_DIR ++ lit "/a.ts")])
  /\ (exists w',
        main sample_os_walk sample_world_undecodable = (Raise UnicodeDecodeError, w'))
  /\ (exists w',
        main sample_os_walk sample_world_read_only =
          (Raise (OSError (TARGET_DIR ++ lit "/a.ts")), w')
        /\ stdout w' = [console_line (TARGET_DIR ++ lit "/a.ts")]).
Proof.
  split; [| split].
  - destruct (main_raises_at_first_failure sample_os_walk sample_world_unreadable
                [TARGET_DIR ++ lit "/a.ts"] (TARGET_DIR ++ lit "/lib/b.tsx")
                [TARGET_DIR ++ lit "/lib/c.ts"])
      as (w' & evs & Hmain & _ & _ & _ & _ & _ & _ & _).
    + vm_compute. reflexivity.
    + apply (bool_decide_unpack _). vm_compute. exact I.
    + vm_compute. reflexivity.
    + exists w'. split; [exact Hmain |].
      pose proof (f_equal snd Hmain) as Hw. cbn [snd] in Hw. subst w'.
      vm_compute. reflexivity.
  - destruct (main_raises_at_first_failure sample_os_walk sample_world_undecodable
                [TARGET_DIR ++ lit "/a.ts"] (TARGET_DIR ++ lit "/lib/b.tsx")
                [TARGET_DIR ++ lit "/lib/c.ts"])
      as (w' & evs & Hmain & _).
    + vm_compute. reflexivity.
    + apply (bool_decide_unpack _). vm_compute. exact I.
    + vm_compute. reflexivity.
    + exists w'. exact Hmain.
  - destruct (main_raises_at_first_failure sample_os_walk sample_world_read_only
                [] (TARGET_DIR ++ lit "/a.ts")
                [TARGET_DIR ++ lit "/lib/b.tsx"; TARGET_DIR ++ lit "/lib/c.ts"])
      as (w' & evs & Hmain & _).
    + vm_compute. reflexivity.
    + constructor.
    + vm_compute. reflexivity.
    + exists w'. split; [exact Hmain |].
      pose proof (f_equal snd Hmain) as Hw. cbn [snd] in Hw. subst w'.
      vm_compute. reflexivity.
Defined.

(** X9. The run completes exactly when every target path of the walk
    leads to a file that decodes and, if it qualifies, accepts the write.
    The only exceptions it can end in are [OSError], for a target path of
    the walk, and [UnicodeDecodeError]; never the division by zero. *)
Theorem main_returns_iff_all_fine os_walk w :
  ((exists w', main os_walk w = (Ok tt, w')) <->
   Forall (fun q => fine w q = true) (target_paths (os_walk TARGET_DIR)))
  /\ (forall q, fine w q = true <->
        exists f text, file_at w q = Some f /\ contents f = Text text
                       /\ (qualifies text = true -> on_write f = Accepts))
  /\ (forall e w', main os_walk w = (Raise e, w') ->
        e = UnicodeDecodeError
        \/ exists p, p ∈ target_paths (os_walk TARGET_DIR) /\ e = OSError p)
  /\ fst (main os_walk w) <> Raise ZeroDivisionError.
Proof.
  destruct (main_loops os_walk w) as (w1 & count & evs & Hmain & _).
  assert (Hraise : forall e w', main os_walk w = (Raise e, w') ->
            e = UnicodeDecodeError
            \/ exists p, p ∈ target_paths (os_walk TARGET_DIR) /\ e = OSError p).
  { intros e w' He. rewrite Hmain in He.
    destruct (ending w _) as [[] | e'] eqn:Hend; [discriminate |].
    injection He as -> _. apply ending_Raise in Hend as (p & Hin & _ & ->).
    destruct (failure_cases w p) as [-> | ->]; [by left | right; by exists p]. }
  split; [| split; [| split]].
  - rewrite <- ending_Ok, Hmain.
    destruct (ending w _) as [[] | e]; split; try done; [eauto | by intros [? ?]].
  - intros q. unfold fine, fine_file, accepts. split.
    + destruct (file_at w q) as [[[text |] m] |]; cbn [contents on_write]; try done.
      intros H. exists (File (Text text) m), text. split; [done |]. split; [done |].
      cbn [on_write]. intros Hq. rewrite Hq in H. by destruct m.
    + intros (f & text & -> & Hc & Hacc). rewrite Hc.
      destruct (qualifies text); [| done]. by rewrite Hacc.
  - exact Hraise.
  - destruct (main os_walk w) as [[[] | e] w'] eqn:E; cbn [fst]; [done |].
    destruct (Hraise e w' eq_refl) as [-> | (p & _ & ->)]; done.
Qed.



(** X11. A run, whether it completes or not, works through the walk's
    target paths and nothing else: every path it opens or writes is a
    target path of the walk, with a target extension, and a file that no
    target path of the walk leads to holds afterwards what it held
    before, under each of its names. *)
Theorem run_touches_walk_targets_only os_walk w r w' :
  main os_walk w = (r, w') ->
  exists evs,
    trace w' = trace w ++ evs
    /\ (forall e, e ∈ evs ->
          event_path e ∈ target_paths (os_walk TARGET_DIR)
          /\ is_target (event_path e) = true)
    /\ (forall i,
          (forall q, q ∈ target_paths (os_walk TARGET_DIR) -> names w !! q <> Some i) ->
          disk w' !! i = disk w !! i)
    /\ (forall p,
          (forall q, q ∈ target_paths (os_walk TARGET_DIR) -> ~ same_file w q p) ->
          file_at w' p = file_at w p).
Proof.
  destruct (main_loops os_walk w)
    as (w1 & count & evs & Hmain & Hnames & _ & Htr & Hev & _ & _ & _ & Hfr).
  intros Heq. rewrite Hmain in Heq.
  assert (Hw : names w' = names w1 /\ disk w' = disk w1 /\ trace w' = trace w1).
  { destruct (ending w _) as [[] | e]; by injection Heq as _ <-. }
  destruct Hw as (Hn & Hd & Ht). rewrite <- Hn in Hnames. rewrite <- Hd in Hfr.
  rewrite <- Ht in Htr.
  assert (Hdisk : forall i,
            (forall q, q ∈ target_paths (os_walk TARGET_DIR) -> names w !! q <> Some i) ->
            disk w' !! i = disk w !! i).
  { intros i Hi. apply Hfr. intros q Hq. apply Hi. by eapply reached_subset. }
  exists evs. split; [done |]. split; [| split; [done |]].
  - intros e He. apply Hev, reached_subset in He. split; [done |].
    by eapply paths_of_target.
  - intros q Hq. apply file_at_frame; [done |]. intros i Hi. apply Hdisk.
    intros q' Hq' Hqi. apply (Hq q' Hq'). by exists i.
Qed.

Lemma run_touches_walk_targets_only_witness :
  exists evs,
    trace sample_world_after = trace sample_world ++ evs
    /\ (forall e, e ∈ evs ->
          event_path e ∈ target_paths (sample_os_walk TARGET_DIR)
          /\ is_target (event_path e) = true)
    /\ (forall i,
          (forall q, q ∈ target_paths (sample_os_walk TARGET_DIR) ->
                     names sample_world !! q <> Some i) ->
          disk sample_world_after !! i = disk sample_world !! i)
    /\ (forall p,
          (forall q, q ∈ target_paths (sample_os_walk TARGET_DIR) ->
                     ~ same_file sample_world q p) ->
          file_at sample_world_after p = file_at sample_world p).
Proof.
  apply (run_touches_walk_targets_only sample_os_walk sample_world (Ok tt) sample_world_after).
  unfold sample_world_after. apply pair_fst. vm_compute. reflexivity.
Defined.

(** X12. In any completed run, with or without repeated paths, a file is
    written only right after it was opened, the console shows one line
    "Uncommenting: <path>" per write, in the order of the writes, and the
    summary line gives their number. *)
Theorem console_follows_writes os_walk w w' :
  main os_walk w = (Ok tt, w') ->
  exists evs,
    trace w' = trace w ++ evs
    /\ paired evs = true
    /\ stdout w' =
       stdout w ++ map (fun e => lit "Uncommenting: " ++ event_path e) (writes evs)
                ++ [lit "Total files uncommented: " ++ str_of_nat (length (writes evs))].
Proof.
  destruct (main_loops os_walk w)
    as (w1 & count & evs & Hmain & _ & _ & Htr & _ & Hout & Hc & Hp & _).
  intros Heq. rewrite Hmain in Heq.
  destruct (ending w _) as [[] | e] eqn:Hend; [| discriminate].
  injection Heq as <-. cbn [stdout trace print].
  apply ending_Ok, reached_fine in Hend as (_ & _ & Hpe).
  rewrite Hpe, app_nil_r in Hout.
  exists evs. split; [done |]. split; [by apply Hp |].
  rewrite Hout, Hc, <- app_assoc. done.
Qed.

Lemma console_follows_writes_witness :
  exists evs,
    trace sample_world_after = trace sample_world ++ evs
    /\ paired evs = true
    /\ stdout sample_world_after =
       stdout sample_world
       ++ map (fun e => lit "Uncommenting: " ++ event_path e) (writes evs)
       ++ [lit "Total files uncommented: " ++ str_of_nat (length (writes evs))].
Proof.
  apply (console_follows_writes sample_os_walk sample_world sample_world_after).
  unfold sample_world_after. apply pair_fst. vm_compute. reflexivity.
Defined.

(** *** Line ends *)

Lemma lines_of_translated text : lines_of (universal_newlines text) = lines_of text.
Proof.
  unfold lines_of. by rewrite (universal_newlines_id _ (universal_newlines_no_cr text)).
Qed.

(** X13. Files are read with universal newlines and written as they are,
    so a rewritten file has no carriage return left: "\r\n" and "\r" line
    ends come back as "\n", and what is written depends on the file only
    up to that translation. *)
Theorem rewritten_has_no_carriage_return (text : str) :
  (13%N ∉ rewritten text)
  /\ rewritten (universal_newlines text) = rewritten text
  /\ qualifies (universal_newlines text) = qualifies text
  /\ (forall root file w count,
        is_target file = true ->
        text_at w (os_path_join root file) = Some text ->
        qualifies text = true ->
        accepts_write w (os_path_join root file) = true ->
        exists w' count' new,
          visit root file (w, count) = (Ok tt, (w', count'))
          /\ text_at w' (os_path_join root file) = Some new
          /\ 13%N ∉ new)
  /\ (forall root file w count w' count',
        is_target file = true ->
        text_at w (os_path_join root file) = Some text ->
        qualifies text = true ->
        visit root file (w, count) = (Ok tt, (w', count')) ->
        exists new, text_at w' (os_path_join root file) = Some new /\ 13%N ∉ new).
Proof.
  split; [apply rewritten_no_cr |]. split; [| split; [| split]].
  - unfold rewritten. by rewrite lines_of_translated.
  - unfold qualifies. by rewrite lines_of_translated.
  - intros root file w count Ht Hf Hq Hacc.
    destruct (visit_run_once root file w count text Ht Hf Hacc) as (w' & count' & Hv & Hw).
    exists w', count', (run_once text). split; [done |]. split; [done |].
    unfold run_once. rewrite Hq. apply rewritten_no_cr.
  - intros root file w count w' count' Ht Hf Hq Hv.
    exists (run_once text). split; [by eapply visit_completed |].
    unfold run_once. rewrite Hq. apply rewritten_no_cr.
Qed.

End Further.
